(** * NeuroFHIR temporal graph builder: a shallow embedding

    This development embeds [neurofhir/temporal_builder.py] (class
    [FHIRTemporalGraphBuilder]) and states its specification as theorems.

    Conventions of the embedding:
    - a Python object read from a FHIR resource is a [value];
    - code that may raise returns a [result]; code that mutates the builder
      runs in the monad [M], which keeps the state reached before a raise,
      as Python does;
    - a Python [dict] is a [gmap], except a FHIR resource, whose keys are
      looked up in an association list;
    - a Polars frame is a list of typed rows together with its column names. *)

From Stdlib Require Import ZArith Ascii String.
From stdpp Require Import base option list gmap strings fin_maps sorting.

Set Warnings "-register-all,-clear-no-such-hyp".

Open Scope string_scope.
Open Scope list_scope.
Open Scope Z_scope.

(** ** Exceptions and results *)

Inductive exn : Type :=
  | ValueError
  | TypeError
  | AttributeError
  | OverflowError
  | IndexError
  | KeyError
  | ColumnNotFoundError.

Inductive result (A : Type) : Type :=
  | OK (a : A)
  | Raise (e : exn).
Arguments OK {A} a.
Arguments Raise {A} e.

(** ** Python strings *)

Module PyStr.

(** [s.startswith(p)] *)
Definition startswith (p s : string) : bool := String.prefix p s.

(** [sub in s] *)
Fixpoint contains (sub s : string) : bool :=
    String.prefix sub s ||
    match s with
    | EmptyString => false
    | String _ s' => contains sub s'
    end.

(** [s.endswith(suf)] *)
Fixpoint endswith (suf s : string) : bool :=
    String.eqb s suf ||
    match s with
    | EmptyString => false
    | String _ s' => endswith suf s'
    end.

(** [s[:-1]] *)
Fixpoint drop_last (s : string) : string :=
    match s with
    | EmptyString => EmptyString
    | String _ EmptyString => EmptyString
    | String a s' => String a (drop_last s')
    end.

(** [s.split(sep)] for a one-character separator: never empty. *)
Fixpoint split (sep : ascii) (s : string) : list string :=
    match s with
    | EmptyString => [EmptyString]
    | String a s' =>
        if Ascii.eqb a sep then EmptyString :: split sep s'
        else match split sep s' with
             | h :: t => String a h :: t
             | [] => [String a EmptyString]
             end
    end.

(** [l[-k]] for k >= 1; Python raises IndexError when k > len(l). *)
Definition index_from_end {A} (l : list A) (k : nat) : result A :=
    match rev l !! (k - 1)%nat with
    | Some x => OK x
    | None => Raise IndexError
    end.

(** [c] does not occur in [s]. *)
Fixpoint free_of (c : ascii) (s : string) : bool :=
    match s with
    | EmptyString => true
    | String a s' => negb (Ascii.eqb a c) && free_of c s'
    end.

End PyStr.

(** ** Reference strings (lines 262-284 of the builder) *)

Module Reference.
Import PyStr.

(** [lambda x: x.split("/")[-2] if "/" in x and not x.startswith("urn:") else None] *)
Definition tgt_type_hint (x : string) : result (option string) :=
    if contains "/" x && negb (startswith "urn:" x)
    then match index_from_end (split "/" x) 2 with
         | OK t => OK (Some t)
         | Raise e => Raise e
         end
    else OK None.

(** [lambda x: x.split(":")[-1] if "urn:" in x else (x.split("/")[-1] if "/" in x else x)] *)
Definition tgt_id (x : string) : result string :=
    if contains "urn:" x then index_from_end (split ":" x) 1
    else if contains "/" x then index_from_end (split "/" x) 1
    else OK x.

(** [inferred_target_type], lines 274-276. *)
Definition inferred_target_type (ref_field : string) : string :=
    if String.eqb ref_field "subject" then "Patient"
    else if String.eqb ref_field "encounter" then "Encounter"
    else "Practitioner".

(** [pl.when(tgt_type_hint.is_not_null()).then(tgt_type_hint).otherwise(inferred)] *)
Definition tgt_type (inferred : string) (hint : option string) : string :=
    match hint with
    | Some t => t
    | None => inferred
    end.

(** The (target type, target id) a reference string resolves to. *)
Definition resolve (inferred x : string) : result (string * string) :=
    match tgt_type_hint x with
    | Raise e => Raise e
    | OK hint =>
        match tgt_id x with
        | Raise e => Raise e
        | OK i => OK (tgt_type inferred hint, i)
        end
    end.

(** What the specification words say: the text before, and after, the
    final occurrence of a separator. *)
Fixpoint text_after_final (sep : ascii) (s : string) : string :=
    match s with
    | EmptyString => EmptyString
    | String a s' =>
        if free_of sep s' then (if Ascii.eqb a sep then s' else s)
        else text_after_final sep s'
    end.

Fixpoint text_before_final (sep : ascii) (s : string) : string :=
    match s with
    | EmptyString => EmptyString
    | String a s' =>
        if free_of sep s' then EmptyString
        else String a (text_before_final sep s')
    end.

(** The resolution rule as the specification words it. *)
Definition resolve_as_specified (inferred s : string) : string * string :=
    if contains "/" s && negb (startswith "urn:" s)
    then (text_before_final "/" s, text_after_final "/" s)
    else if startswith "urn:" s then (inferred, text_after_final ":" s)
    else (inferred, s).

End Reference.

(** ** Python objects found in a FHIR resource *)

Inductive value : Type :=
  | VNone
  | VBool (b : bool)
  | VInt (z : Z)
  | VStr (s : string)
  | VList (l : list value)
  | VDict (d : list (string * value)).

(** A resource is a string-keyed mapping, [Dict[str, Any]]. *)
Abbreviation resource := (list (string * value)).

Module PyDict.

Fixpoint lookup (k : string) (d : resource) : option value :=
    match d with
    | [] => None
    | (k', v) :: d' => if String.eqb k k' then Some v else lookup k d'
    end.

(** [d.get(k)] *)
Definition get (d : resource) (k : string) : value :=
    default VNone (lookup k d).

(** [d.get(k, {}).get(k2)]: the inner [get] exists on mappings only. *)
Definition get_nested (d : resource) (k k2 : string) : result value :=
    match lookup k d with
    | None => OK VNone
    | Some (VDict sub) => OK (get sub k2)
    | Some _ => Raise AttributeError
    end.

(** Truth value of an object, as [or] and [not] test it. *)
Definition truthy (v : value) : bool :=
    match v with
    | VNone => false
    | VBool b => b
    | VInt z => negb (z =? 0)
    | VStr s => negb (String.eqb s "")
    | VList l => match l with [] => false | _ => true end
    | VDict d => match d with [] => false | _ => true end
    end.

(** [a or <rest>] *)
Definition por (a : value) (rest : result value) : result value :=
    if truthy a then OK a else rest.

End PyDict.

(** ** Instants *)

Module Datetime.

(** A [datetime.datetime] is kept as the number of microseconds of its
    wall-clock fields since 0001-01-01T00:00:00 (the quantity datetime
    arithmetic works on), and its [tzinfo]: [None], or the UTC offset in
    microseconds. *)
Record datetime : Type := mk_datetime {
    wall_us : Z;
    tzinfo : option Z
  }.

Definition us_per_second : Z := 1000000.
Definition us_per_day : Z := 86400 * us_per_second.

(** [datetime.timezone.utc] *)
Definition utc : Z := 0.

(** [datetime.min] and [datetime.max] bound what arithmetic may produce:
    0001-01-01T00:00:00 .. 9999-12-31T23:59:59.999999. *)
Definition max_ordinal_days : Z := 3652059.
Definition in_range (us : Z) : bool :=
    (0 <=? us) && (us <? max_ordinal_days * us_per_day).

(** [ts.replace(tzinfo=datetime.timezone.utc)] *)
Definition replace_tzinfo (ts : datetime) (tz : Z) : datetime :=
    {| wall_us := wall_us ts; tzinfo := Some tz |}.

(** [ts.astimezone(datetime.timezone.utc)] on an aware value: the wall
    clock moves by the offset; leaving the supported range raises. *)
Definition astimezone_utc (ts : datetime) : result datetime :=
    let off := default 0 (tzinfo ts) in
    let u := wall_us ts - off in
    if in_range u then OK {| wall_us := u; tzinfo := Some utc |}
    else Raise OverflowError.

(** Days before 1970-01-01, counted from 0001-01-01. *)
Definition unix_epoch_days : Z := 719162.

(** The instant a datetime denotes, in microseconds since the Unix
    epoch: the value stored in a [Datetime("us", "UTC")] column. *)
Definition to_unix_us (ts : datetime) : Z :=
    wall_us ts - default 0 (tzinfo ts) - unix_epoch_days * us_per_day.

(** Proleptic Gregorian calendar. *)
Definition is_leap (y : Z) : bool :=
    ((y mod 4 =? 0) && negb (y mod 100 =? 0)) || (y mod 400 =? 0).

Definition days_before_year (y : Z) : Z :=
    let p := y - 1 in p * 365 + p / 4 - p / 100 + p / 400.

Definition days_in_month (y m : Z) : Z :=
    if m =? 2 then (if is_leap y then 29 else 28)
    else if (m =? 4) || (m =? 6) || (m =? 9) || (m =? 11) then 30
    else 31.

Fixpoint days_before_month_aux (y : Z) (m : nat) : Z :=
    match m with
    | O => 0
    | S m' => days_before_month_aux y m' + days_in_month y (Z.of_nat m)
    end.

Definition days_before_month (y m : Z) : Z :=
    days_before_month_aux y (Z.to_nat (m - 1)).

(** Days since 0001-01-01 of a calendar date. *)
Definition ymd_to_days (y m d : Z) : Z :=
    days_before_year y + days_before_month y m + (d - 1).

Definition of_fields (y mo d h mi s us : Z) (tz : option Z) : datetime :=
    {| wall_us := ymd_to_days y mo d * us_per_day
                  + ((h * 60 + mi) * 60 + s) * us_per_second + us;
       tzinfo := tz |}.

End Datetime.

(** ** A model of [datetime.fromisoformat]

    The builder calls the standard library parser; the theorems below hold
    for any parser.  This model of the grammar
    [YYYY-MM-DD[*HH[:MM[:SS[.fff[fff]]]][(+|-)HH:MM[:SS[.ffffff]]]]] lets the
    builder run on concrete resources.  [None] stands for [ValueError]. *)

Module Iso8601.
Import Datetime.

Definition digit (a : ascii) : option Z :=
    let n := Z.of_nat (nat_of_ascii a) in
    if (48 <=? n) && (n <=? 57) then Some (n - 48) else None.

(** Exactly [n] leading digits, and the rest of the string. *)
Fixpoint digits (n : nat) (acc : Z) (s : string) : option (Z * string) :=
    match n with
    | O => Some (acc, s)
    | S n' =>
        match s with
        | EmptyString => None
        | String a s' => d ← digit a; digits n' (acc * 10 + d) s'
        end
    end.

Definition expect (c : ascii) (s : string) : option string :=
    match s with
    | String a s' => if Ascii.eqb a c then Some s' else None
    | EmptyString => None
    end.

Definition at_end (s : string) : option unit :=
    match s with EmptyString => Some tt | _ => None end.

Definition check (b : bool) : option unit := if b then Some tt else None.

(** The fraction: three or six digits. *)
Definition fraction (s : string) : option Z :=
    if (String.length s =? 3)%nat then '(f, r) ← digits 3 0 s; _ ← at_end r; Some (f * 1000)
    else if (String.length s =? 6)%nat then '(f, r) ← digits 6 0 s; _ ← at_end r; Some f
    else None.

(** [HH[:MM[:SS[.fff[fff]]]]] *)
Definition hh_mm_ss_ff (s : string) : option (Z * Z * Z * Z) :=
    '(h, s1) ← digits 2 0 s;
    match s1 with
    | EmptyString => Some (h, 0, 0, 0)
    | String c1 s2 =>
        _ ← check (Ascii.eqb c1 ":");
        '(m, s3) ← digits 2 0 s2;
        match s3 with
        | EmptyString => Some (h, m, 0, 0)
        | String c2 s4 =>
            _ ← check (Ascii.eqb c2 ":");
            '(sec, s5) ← digits 2 0 s4;
            match s5 with
            | EmptyString => Some (h, m, sec, 0)
            | String c3 f => _ ← check (Ascii.eqb c3 "."); us ← fraction f; Some (h, m, sec, us)
            end
        end
    end.

(** The text before and after the first occurrence of [c]. *)
Fixpoint cut (c : ascii) (s : string) : option (string * string) :=
    match s with
    | EmptyString => None
    | String a s' =>
        if Ascii.eqb a c then Some (EmptyString, s')
        else '(p, q) ← cut c s'; Some (String a p, q)
    end.

(** The time text, and the sign and text of the offset when there is one:
    the first ["-"], else the first ["+"], starts the offset. *)
Definition split_offset (t : string) : string * option (Z * string) :=
    match cut "-" t with
    | Some (p, q) => (p, Some (-1, q))
    | None =>
        match cut "+" t with
        | Some (p, q) => (p, Some (1, q))
        | None => (t, None)
        end
    end.

Definition offset_us (sign : Z) (tz : string) : option Z :=
    let n := String.length tz in
    _ ← check ((n =? 5)%nat || (n =? 8)%nat || (n =? 15)%nat);
    '(h, m, s, us) ← hh_mm_ss_ff tz;
    let off := ((h * 60 + m) * 60 + s) * us_per_second + us in
    _ ← check (off <? us_per_day);
    Some (sign * off).

Definition time_part (t : string) : option (Z * Z * Z * Z * option Z) :=
    let '(clock, off) := split_offset t in
    '(h, m, s, us) ← hh_mm_ss_ff clock;
    _ ← check ((h <? 24) && (m <? 60) && (s <? 60));
    match off with
    | None => Some (h, m, s, us, None)
    | Some (sign, tz) => o ← offset_us sign tz; Some (h, m, s, us, Some o)
    end.

Definition fromisoformat (date_string : string) : option datetime :=
    '(y, s1) ← digits 4 0 date_string;
    s2 ← expect "-" s1;
    '(mo, s3) ← digits 2 0 s2;
    s4 ← expect "-" s3;
    '(d, s5) ← digits 2 0 s4;
    _ ← check ((1 <=? y) && (1 <=? mo) && (mo <=? 12) && (1 <=? d) && (d <=? days_in_month y mo));
    match s5 with
    | EmptyString => Some (of_fields y mo d 0 0 0 0 None)
    | String _ EmptyString => Some (of_fields y mo d 0 0 0 0 None)
    | String _ t =>
        '(h, m, s, us, tz) ← time_part t;
        Some (of_fields y mo d h m s us tz)
    end.

End Iso8601.

(** ** Stateful code

    [M S A] is a computation over a mutable state [S] that returns an [A] or
    raises.  The state reached when an exception is raised is kept: Python
    does not undo the mutations made before a raise. *)

Definition M (S A : Type) : Type := S → result A * S.

Definition ret {S A} (a : A) : M S A := λ s, (OK a, s).

Definition bind {S A B} (c : M S A) (k : A → M S B) : M S B :=
  λ s, match c s with
       | (OK a, s') => k a s'
       | (Raise e, s') => (Raise e, s')
       end.

Definition raise {S A} (e : exn) : M S A := λ s, (Raise e, s).

(** A pure fallible step. *)
Definition lift {S A} (r : result A) : M S A := λ s, (r, s).

Definition gets {S A} (f : S → A) : M S A := λ s, (OK (f s), s).

Definition modify {S} (f : S → S) : M S unit := λ s, (OK tt, f s).

(** [try: c  except Exception: h] *)
Definition try_except {S A} (c : M S A) (h : exn → M S A) : M S A :=
  λ s, match c s with
       | (OK a, s') => (OK a, s')
       | (Raise e, s') => h e s'
       end.

Declare Scope py_scope.
Delimit Scope py_scope with py.
Notation "'do' x <- c ; k" := (bind c (λ x, k))
  (at level 10, x name, c at level 100, k at level 200) : py_scope.
Notation "'do' ' p <- c ; k" := (bind c (λ x, match x with p => k end))
  (at level 10, p pattern, c at level 100, k at level 200) : py_scope.
Notation "'run' c ; k" := (bind c (λ _, k))
  (at level 10, c at level 100, k at level 200) : py_scope.

(** [for x in l: acc = f acc x], with the loop-carried locals in [acc]. *)
Fixpoint for_each {S A B} (f : B → A → M S B) (l : list A) (acc : B) : M S B :=
  match l with
  | [] => ret acc
  | x :: l' => (do acc' <- f acc x; for_each f l' acc')%py
  end.

(** A computation on the builder, run where the state also holds locals. *)
Definition on_fst {S L A} (c : M S A) : M (S * L) A :=
  λ '(s, l), let '(r, s') := c s in (r, (s', l)).

Definition on_snd {S L A} (c : M L A) : M (S * L) A :=
  λ '(s, l), let '(r, l') := c l in (r, (s, l')).

(** Run [c] with a local variable initialised to [l0]; its final value is
    returned with the result. *)
Definition with_local {S L A} (l0 : L) (c : M (S * L) A) : M S (A * L) :=
  λ s, match c (s, l0) with
       | (OK a, (s', l)) => (OK (a, l), s')
       | (Raise e, (s', _)) => (Raise e, s')
       end.

(** ** The builder and its node registry *)

(** A dictionary key read from a Utf8 column: a string, or [None]. *)
Abbreviation key := (option string).

(** [self.node_mapping : Dict[str, Dict[str, int]]] *)
Abbreviation registry := (gmap (option string) (gmap (option string) nat)).

Record Builder : Type := mk_builder {
  node_mapping : registry;
  time_window : positive;
  _warned_about_torch : bool
}.

(** [FHIRTemporalGraphBuilder(time_window)].  The Polars duration string is
    taken as the number of microseconds it denotes (["1d"] is [one_day]). *)
Definition new_builder (w : positive) : Builder :=
  {| node_mapping := ∅; time_window := w; _warned_about_torch := false |}.

Definition one_hour : positive := 3600000000.
Definition one_day : positive := 86400000000.

Definition set_node_mapping (nm : registry) (b : Builder) : Builder :=
  {| node_mapping := nm; time_window := time_window b;
     _warned_about_torch := _warned_about_torch b |}.

Definition set_warned (b : Builder) : Builder :=
  {| node_mapping := node_mapping b; time_window := time_window b;
     _warned_about_torch := true |}.

(** Lines 55-61 on the mapping alone. *)
Definition get_or_create (resource_type resource_id : key) (nm : registry)
  : nat * registry :=
  let nm1 :=
    if decide (nm !! resource_type = None) then <[resource_type := ∅]> nm else nm in
  let mapping := nm1 !!! resource_type in
  let mapping' :=
    if decide (mapping !! resource_id = None)
    then <[resource_id := size mapping]> mapping else mapping in
  (mapping' !!! resource_id, <[resource_type := mapping']> nm1).

(** [_get_node_index(self, resource_type, resource_id)] *)
Definition _get_node_index (resource_type resource_id : key) : M Builder nat :=
  λ b, let '(idx, nm) := get_or_create resource_type resource_id (node_mapping b) in
       (OK idx, set_node_mapping nm b).

(** The index registered for a pair, if any. *)
Definition index_of (nm : registry) (t i : key) : option nat :=
  nm !! t ≫= λ mapping, mapping !! i.

(** [len(self.node_mapping[t])], zero for a type never seen. *)
Definition node_count (nm : registry) (t : key) : nat :=
  from_option size 0%nat (nm !! t).

(** ** Frames: the part of Polars the builder uses *)

(** One entry of [data_dicts] (lines 108-115): Python objects. *)
Record DataDict : Type := mk_data_dict {
  dd_resourceType : value;
  dd_id : value;
  dd_timestamp : Datetime.datetime;
  dd_subject_ref : value;
  dd_encounter_ref : value;
  dd_payload : resource
}.

(** One row of the frame: typed cells, [None] for null. *)
Record Row : Type := mk_row {
  col_resourceType : key;
  col_id : key;
  col_timestamp : Z;
  col_subject_ref : option string;
  col_encounter_ref : option string;
  col_payload : resource;
  col_snapshot_idx : Z
}.

Record DataFrame : Type := mk_frame {
  columns : list string;
  rows : list Row
}.

Module Polars.

(** A cell of a Utf8 column built with [strict=False]: a string stays, any
    other object gives null. *)
Definition utf8 (v : value) : option string :=
    match v with
    | VStr s => Some s
    | _ => None
    end.

Definition row_of (d : DataDict) : Row :=
    {| col_resourceType := utf8 (dd_resourceType d);
       col_id := utf8 (dd_id d);
       col_timestamp := Datetime.to_unix_us (dd_timestamp d);
       col_subject_ref := utf8 (dd_subject_ref d);
       col_encounter_ref := utf8 (dd_encounter_ref d);
       col_payload := dd_payload d;
       col_snapshot_idx := 0 |}.

(** [pl.DataFrame(data_dicts, strict=False)] *)
Definition DataFrame_of (data_dicts : list DataDict) : DataFrame :=
    {| columns := ["resourceType"; "id"; "timestamp"; "subject_ref";
                   "encounter_ref"; "payload"];
       rows := map row_of data_dicts |}.

Definition has_column (df : DataFrame) (c : string) : bool :=
    bool_decide (c ∈ columns df).

Definition require (df : DataFrame) (c : string) : result unit :=
    if has_column df c then OK tt else Raise ColumnNotFoundError.

(** [df.sort("timestamp")]: ascending; rows with equal instants keep
    their order. *)
Fixpoint insert_sorted (r : Row) (l : list Row) : list Row :=
    match l with
    | [] => [r]
    | h :: t =>
        if col_timestamp r <=? col_timestamp h then r :: l
        else h :: insert_sorted r t
    end.

Definition sort_rows (l : list Row) : list Row := foldr insert_sorted [] l.

Definition sort_by_timestamp (df : DataFrame) : DataFrame :=
    {| columns := columns df; rows := sort_rows (rows df) |}.

(** [dt.truncate(every)] on microseconds since the Unix epoch. *)
Definition truncate (every : positive) (t : Z) : Z :=
    t - t mod Z.pos every.

Definition set_snapshot_idx (every : positive) (r : Row) : Row :=
    {| col_resourceType := col_resourceType r;
       col_id := col_id r;
       col_timestamp := col_timestamp r;
       col_subject_ref := col_subject_ref r;
       col_encounter_ref := col_encounter_ref r;
       col_payload := col_payload r;
       col_snapshot_idx := truncate every (col_timestamp r) |}.

(** [df.with_columns(pl.col("timestamp").dt.truncate(every).alias("snapshot_idx"))] *)
Definition with_snapshot_idx (every : positive) (df : DataFrame) : DataFrame :=
    {| columns := columns df ++ ["snapshot_idx"];
       rows := map (set_snapshot_idx every) (rows df) |}.

(** Grouping that keeps the order of first appearance of the keys and the
    order of the rows inside a group. *)
Fixpoint add_to_group {K} `{EqDecision K} (k : K) (r : Row)
      (gs : list (K * list Row)) : list (K * list Row) :=
    match gs with
    | [] => [(k, [r])]
    | (k', g) :: gs' =>
        if decide (k = k') then (k', g ++ [r]) :: gs'
        else (k', g) :: add_to_group k r gs'
    end.

Definition group_rows {K} `{EqDecision K} (f : Row → K) (l : list Row)
    : list (K * list Row) :=
    fold_left (λ gs r, add_to_group (f r) r gs) l [].

Definition sub_frames {K} (df : DataFrame) (gs : list (K * list Row))
    : list (K * DataFrame) :=
    map (λ '(k, g), (k, {| columns := columns df; rows := g |})) gs.

(** [df.group_by("snapshot_idx", maintain_order=True)] *)
Definition group_by_snapshot_idx (df : DataFrame) : result (list (Z * DataFrame)) :=
    match require df "snapshot_idx" with
    | Raise e => Raise e
    | OK _ => OK (sub_frames df (group_rows col_snapshot_idx (rows df)))
    end.

(** [df.partition_by("resourceType", as_dict=True)]: the keys of the
    dictionary are the values of the column, in order of first appearance. *)
Definition partition_by_resourceType (df : DataFrame)
    : result (list (key * DataFrame)) :=
    match require df "resourceType" with
    | Raise e => Raise e
    | OK _ => OK (sub_frames df (group_rows col_resourceType (rows df)))
    end.

(** The Utf8 column a reference field was extracted to. *)
Definition ref_column (col_name : string) : option (Row → option string) :=
    if String.eqb col_name "subject_ref" then Some col_subject_ref
    else if String.eqb col_name "encounter_ref" then Some col_encounter_ref
    else None.

(** Lines 242-246: [df.select([resourceType as src_type, id as src_id,
    col_name as ref_str]).filter(ref_str.is_not_null())]. *)
Definition edge_candidates (df : DataFrame) (col_name : string)
    : result (list (key * key * string)) :=
    if has_column df "resourceType" && has_column df "id" && has_column df col_name
    then match ref_column col_name with
         | Some col =>
             OK (omap (λ r, ref ← col r; Some (col_resourceType r, col_id r, ref))
                      (rows df))
         | None => Raise ColumnNotFoundError
         end
    else Raise ColumnNotFoundError.

(** [df["timestamp"].min()] *)
Definition min_timestamp (df : DataFrame) : result (option Z) :=
    match require df "timestamp" with
    | Raise e => Raise e
    | OK _ =>
        OK (foldr (λ r acc, Some (from_option (Z.min (col_timestamp r))
                                               (col_timestamp r) acc))
                  None (rows df))
    end.

End Polars.

(** ** Snapshots *)

(** [(source_type, relation, target_type)] and the two index lists. *)
Abbreviation edge_key := (option string * string * option string)%type.
Abbreviation edges := (gmap (option string * string * option string) (list nat * list nat)).

(** What the plain-mapping snapshot binds its keys to. *)
Inductive PyVal : Type :=
  | PTime (t : Z)
  | PCounts (c : gmap (option string) nat)
  | PEdges (e : edges).

(** A [torch_geometric] heterogeneous graph: per node type the [num_nodes]
    that was set, per edge type the [edge_index] rows, and graph attributes. *)
Record HeteroData : Type := mk_hetero {
  hd_num_nodes : gmap (option string) nat;
  hd_edge_index : edges;
  hd_attrs : gmap string Z
}.

Definition empty_hetero : HeteroData :=
  {| hd_num_nodes := ∅; hd_edge_index := ∅; hd_attrs := ∅ |}.

Inductive Snapshot : Type :=
  | AsDict (d : gmap string PyVal)
  | AsHeteroData (h : HeteroData).

(** ** The record normalizer (lines 72-115) *)

Module Normalizer.
Import PyDict PyStr Datetime.

(** Lines 74-80: the [or] chain over the seven candidate fields. *)
Definition select_timestamp (res : resource) : result value :=
    por (get res "recordedDate")
    (por (get res "effectiveDateTime")
    (por (get res "issued")
    (por (get res "authoredOn")
    (match get_nested res "period" "start" with
     | Raise e => Raise e
     | OK start =>
         por start
         (por (get res "birthDate")
         (OK (get res "date")))
     end)))).

(** The seven candidate fields, in the order of the chain. *)
Definition FIELD_ORDER : list string :=
    ["recordedDate"; "effectiveDateTime"; "issued"; "authoredOn";
     "period.start"; "birthDate"; "date"].

(** The object a candidate field holds. *)
Definition field_value (res : resource) (name : string) : result value :=
    if String.eqb name "period.start" then get_nested res "period" "start"
    else OK (get res name).

(** [r1 or r2 or ... or rn], operands evaluated from the left as far as
    needed. *)
Fixpoint or_chain (operands : list (result value)) : result value :=
    match operands with
    | [] => OK VNone
    | r :: rest =>
        match rest with
        | [] => r
        | _ => match r with
               | Raise e => Raise e
               | OK v => if truthy v then OK v else or_chain rest
               end
        end
    end.

(** The selection as the specification words it: the first field, in
    that order, whose value is not null. *)
Definition is_null (v : value) : bool :=
    match v with VNone => true | _ => false end.

Fixpoint first_non_null (names : list string) (res : resource) : result value :=
    match names with
    | [] => OK VNone
    | name :: rest =>
        match field_value res name with
        | Raise e => Raise e
        | OK v => if is_null v then first_non_null rest res else OK v
        end
    end.

Definition timestamp_as_specified (res : resource) : result value :=
    first_non_null FIELD_ORDER res.

(** Lines 87-93 on a string. *)
Definition pad_precision (ts_str : string) : string :=
    let ts_str := if (String.length ts_str =? 4)%nat then ts_str +:+ "-01-01" else ts_str in
    let ts_str := if (String.length ts_str =? 7)%nat then ts_str +:+ "-01" else ts_str in
    if endswith "Z" ts_str then drop_last ts_str +:+ "+00:00" else ts_str.

(** Lines 97-100. *)
Definition to_utc (ts : datetime) : result datetime :=
    match tzinfo ts with
    | None => OK (replace_tzinfo ts utc)
    | Some _ => astimezone_utc ts
    end.

Section WithParser.
(** [datetime.datetime.fromisoformat]; [None] is its [ValueError]. *)
Variable fromisoformat : string → option datetime.

(** The body of the [try] (lines 86-100), on the object selected.  An
    object that is not a string has no [len], or no [endswith]. *)
Definition parse_timestamp (ts_str : value) : result datetime :=
      match ts_str with
      | VStr s =>
          match fromisoformat (pad_precision s) with
          | None => Raise ValueError
          | Some ts => to_utc ts
          end
      | VNone | VBool _ | VInt _ => Raise TypeError
      | VList _ => Raise AttributeError
      | VDict d =>
          if (length d =? 4)%nat || (length d =? 7)%nat
          then Raise TypeError else Raise AttributeError
      end.

(** One turn of the loop at line 72: [None] when the record is skipped
    by a [continue]. *)
Definition normalize (res : resource) : result (option DataDict) :=
      match select_timestamp res with
      | Raise e => Raise e
      | OK ts_str =>
          if negb (truthy ts_str) then OK None
          else
            match parse_timestamp ts_str with
            | Raise ValueError => OK None
            | Raise e => Raise e
            | OK ts =>
                match get_nested res "subject" "reference" with
                | Raise e => Raise e
                | OK subj_ref =>
                    match get_nested res "encounter" "reference" with
                    | Raise e => Raise e
                    | OK enc_ref =>
                        OK (Some {| dd_resourceType := get res "resourceType";
                                    dd_id := get res "id";
                                    dd_timestamp := ts;
                                    dd_subject_ref := subj_ref;
                                    dd_encounter_ref := enc_ref;
                                    dd_payload := res |})
                    end
                end
            end
      end.

(** A record without a resolvable timestamp: the chain selects a
    falsy object, or one the parser rejects. *)
Definition unresolvable (res : resource) : Prop :=
      ∃ v, select_timestamp res = OK v
           ∧ (truthy v = false ∨ parse_timestamp v = Raise ValueError).

(** The loop of lines 71-115. *)
Fixpoint collect (fhir_resources : list resource) (data_dicts : list DataDict)
      : result (list DataDict) :=
      match fhir_resources with
      | [] => OK data_dicts
      | res :: rest =>
          match normalize res with
          | Raise e => Raise e
          | OK None => collect rest data_dicts
          | OK (Some d) => collect rest (data_dicts ++ [d])
          end
      end.

End WithParser.

End Normalizer.

(** ** The edge resolver and the snapshot assembler (lines 147-350) *)

Module Assembler.
Import Polars Reference.

(** Lines 184-187: the count is stored in the object created at line 156
    or 158. *)
Definition set_num_nodes (data : Snapshot) (r_type : key) (n : nat) : Snapshot :=
    match data with
    | AsDict d =>
        let counts := match d !! "num_nodes" with
                      | Some (PCounts c) => c
                      | _ => ∅
                      end in
        AsDict (<["num_nodes" := PCounts (<[r_type := n]> counts)]> d)
    | AsHeteroData h =>
        AsHeteroData {| hd_num_nodes := <[r_type := n]> (hd_num_nodes h);
                        hd_edge_index := hd_edge_index h;
                        hd_attrs := hd_attrs h |}
    end.

(** Lines 220-226. *)
Definition relation_configs : list (string * string) :=
    [("subject", "refers_to"); ("encounter", "occurs_in")].

(** Lines 262-284: the columns [tgt_type] and [tgt_id] of a candidate. *)
Definition parse_candidate (inferred : string) (c : key * key * string)
    : result (key * key * string * string) :=
    let '(src_t, src_i, ref_str) := c in
    match tgt_type_hint ref_str with
    | Raise e => Raise e
    | OK hint =>
        match tgt_id ref_str with
        | Raise e => Raise e
        | OK i => OK (src_t, src_i, tgt_type inferred hint, i)
        end
    end.

Fixpoint parse_candidates (inferred : string) (cs : list (key * key * string))
    : result (list (key * key * string * string)) :=
    match cs with
    | [] => OK []
    | c :: cs' =>
        match parse_candidate inferred c with
        | Raise e => Raise e
        | OK p =>
            match parse_candidates inferred cs' with
            | Raise e => Raise e
            | OK ps => OK (p :: ps)
            end
        end
    end.

(** Lines 295-306: the first pass registers both ends of every candidate. *)
Definition register_pass (cands : list (key * key * string * string))
    : M Builder (list nat * list nat) :=
    for_each (λ '(src_indices, tgt_indices) '(src_t, src_i, tgt_t, tgt_i),
                (do s_idx <- _get_node_index src_t src_i;
                 do t_idx <- _get_node_index (Some tgt_t) (Some tgt_i);
                 ret (src_indices ++ [s_idx], tgt_indices ++ [t_idx]))%py)
             cands ([], []).

Definition ensure_key (k : edge_key) (e : edges) : edges :=
    if decide (e !! k = None) then <[k := ([], [])]> e else e.

Definition append_src (k : edge_key) (i : nat) (e : edges) : edges :=
    alter (λ p, (p.1 ++ [i], p.2)) k e.

Definition append_tgt (k : edge_key) (i : nat) (e : edges) : edges :=
    alter (λ p, (p.1, p.2 ++ [i])) k e.

(** Lines 315-324: the second pass fills [edges_dict]. *)
Definition edge_pass (edge_rel : string) (cands : list (key * key * string * string))
    : M (Builder * edges) unit :=
    for_each (λ _ '(src_t, src_i, tgt_t, tgt_i),
                let k := (src_t, edge_rel, Some tgt_t) in
                (run on_snd (modify (ensure_key k));
                 do s <- on_fst (_get_node_index src_t src_i);
                 run on_snd (modify (append_src k s));
                 do t <- on_fst (_get_node_index (Some tgt_t) (Some tgt_i));
                 on_snd (modify (append_tgt k t)))%py)
             cands tt.

(** The body of the [try] for one relation (lines 241-324). *)
Definition relation_body (df : DataFrame) (ref_field edge_rel : string)
    : M (Builder * edges) unit :=
    let col_name := ref_field +:+ "_ref" in
    (do candidates <- lift (edge_candidates df col_name);
     match candidates with
     | [] => ret tt
     | _ =>
         do cands <- lift (parse_candidates (inferred_target_type ref_field) candidates);
         do '(src_indices, tgt_indices) <- on_fst (register_pass cands);
         match src_indices with
         | [] => ret tt
         | _ => edge_pass edge_rel cands
         end
     end)%py.

(** Lines 229-329: every relation, each inside its own [try]. *)
Definition resolve_edges (df : DataFrame) : M (Builder * edges) unit :=
    for_each (λ _ '(ref_field, edge_rel),
                try_except (relation_body df ref_field edge_rel) (λ _, ret tt))
             relation_configs tt.

(** [row["id"]] on a row of [df.iter_rows(named=True)] *)
Definition row_id (df : DataFrame) (row : Row) : result key :=
    if has_column df "id" then OK (col_id row) else Raise KeyError.

(** Lines 172-174: the rows of one resource type. *)
Definition index_rows (r_type : key) (sub_df : DataFrame) : M Builder (list nat) :=
    for_each (λ indices row,
                (do i <- lift (row_id sub_df row);
                 do idx <- _get_node_index r_type i;
                 ret (indices ++ [idx]))%py)
             (rows sub_df) [].

(** Lines 170-187. *)
Definition index_nodes (partitioned : list (key * DataFrame)) (data : Snapshot)
    : M Builder Snapshot :=
    for_each (λ data '(r_type, sub_df),
                (do indices <- index_rows r_type sub_df;
                 do current_max <- gets (λ b, size (node_mapping b !!! r_type));
                 ret (set_num_nodes data r_type current_max))%py)
             partitioned data.

Section WithTorch.
(** The module-level flag; [torch is None] exactly when it is false. *)
Variable torch_geometric_available : bool.

(** Lines 152-158; the flag ends up set whether or not the warning is
    logged. *)
Definition new_data : M Builder Snapshot :=
      if torch_geometric_available then ret (AsHeteroData empty_hetero)
      else (run modify set_warned; ret (AsDict ∅))%py.

(** Lines 337-350. *)
Definition assemble (window_start : Z) (edges_dict : edges) : M Builder Snapshot :=
      if torch_geometric_available then
        ret (AsHeteroData {| hd_num_nodes := ∅;
                             hd_edge_index := edges_dict;
                             hd_attrs := {[ "timestamp" := window_start ]} |})
      else
        (do nm <- gets node_mapping;
         ret (AsDict (<["timestamp" := PTime window_start]>
                     (<["num_nodes" := PCounts (size <$> nm)]>
                     (<["edge_index_dict" := PEdges edges_dict]> ∅)))))%py.

(** [_construct_hetero_data(self, df, window_start)] *)
Definition _construct_hetero_data (df : DataFrame) (window_start : Z)
      : M Builder Snapshot :=
      (do data <- new_data;
       do partitioned <- lift (partition_by_resourceType df);
       do data <- index_nodes partitioned data;
       do '(_, edges_dict) <- with_local ∅ (resolve_edges df);
       do timestamp <- lift (min_timestamp df);
       assemble window_start edges_dict)%py.

End WithTorch.

End Assembler.

(** ** The builder's entry point and the summary reporter *)

(** What a consumer gets from draining a generator: the items yielded, and
    the exception that ended it, if any. *)
Record Drained (A : Type) : Type := mk_drained {
  yielded : list A;
  raised : option exn
}.
Arguments mk_drained {A} yielded raised.
Arguments yielded {A} d.
Arguments raised {A} d.

Module TemporalBuilder.
Import Polars Normalizer Assembler.

Section WithEnvironment.
Variable fromisoformat : string → option Datetime.datetime.
Variable torch_geometric_available : bool.

(** Lines 120-133: the sorted frame with its window column. *)
Definition windowed_frame (every : positive) (data_dicts : list DataDict)
      : DataFrame :=
      with_snapshot_idx every (sort_by_timestamp (DataFrame_of data_dicts)).

(** Lines 137-145: one snapshot per window, in the order of the groups.
    An exception ends the generator after the snapshots already
    yielded. *)
Fixpoint yield_windows (windows : list (Z * DataFrame)) (b : Builder)
      : Drained Snapshot * Builder :=
      match windows with
      | [] => (mk_drained [] None, b)
      | (window_start, window_df) :: rest =>
          match _construct_hetero_data torch_geometric_available
                  window_df window_start b with
          | (Raise e, b') => (mk_drained [] (Some e), b')
          | (OK snap, b') =>
              let '(d, b'') := yield_windows rest b' in
              (mk_drained (snap :: yielded d) (raised d), b'')
          end
      end.

(** [build_snapshots(self, fhir_resources)], drained by its consumer. *)
Definition build_snapshots (fhir_resources : list resource) (b : Builder)
      : Drained Snapshot * Builder :=
      match fhir_resources with
      | [] => (mk_drained [] None, b)
      | _ =>
          match collect fromisoformat fhir_resources [] with
          | Raise e => (mk_drained [] (Some e), b)
          | OK [] => (mk_drained [] None, b)
          | OK data_dicts =>
              match group_by_snapshot_idx
                      (windowed_frame (time_window b) data_dicts) with
              | Raise e => (mk_drained [] (Some e), b)
              | OK windows => yield_windows windows b
              end
          end
      end.

End WithEnvironment.

(** *** [summary] (lines 352-391) *)

(** One printed line ["Snapshot i: nn nodes, ne edges"]. *)
Record SnapshotLine : Type := mk_line {
    line_index : nat;
    line_nodes : nat;
    line_edges : nat
  }.

(** The report: the lines, and the counters behind the three totals. *)
Record Report : Type := mk_report {
    report_lines : list SnapshotLine;
    report_count : nat;
    report_total_nodes : nat;
    report_total_edges : nat
  }.

Definition sum_values {K} `{Countable K} (m : gmap K nat) : nat :=
    map_fold (λ _ v acc, (v + acc)%nat) 0%nat m.

(** Line 377-378: [ne_val += len(v[0])] over the items of a mapping. *)
Definition count_pairs (e : edges) : nat :=
    map_fold (λ _ v acc, (acc + length v.1)%nat) 0%nat e.

(** Lines 368-372 in dict mode. *)
Definition nn_val_of (snap : gmap string PyVal) : result nat :=
    match snap !! "num_nodes" with
    | None => OK 0%nat
    | Some (PCounts c) => OK (sum_values c)
    | Some (PEdges e) => if decide (e = ∅) then OK 0%nat else Raise TypeError
    | Some (PTime _) => Raise TypeError
    end.

(** Lines 375-378 in dict mode: the mapping bound to ["edges"]. *)
Definition ne_val_of (snap : gmap string PyVal) : result nat :=
    match snap !! "edges" with
    | None => OK 0%nat
    | Some (PEdges e) => OK (count_pairs e)
    | Some (PCounts c) => if decide (c = ∅) then OK 0%nat else Raise TypeError
    | Some (PTime _) => Raise AttributeError
    end.

(** Lines 365-382: the two counts of one snapshot. *)
Definition counts_of (snap : Snapshot) : result (nat * nat) :=
    match snap with
    | AsDict d =>
        match nn_val_of d with
        | Raise e => Raise e
        | OK nn =>
            match ne_val_of d with
            | Raise e => Raise e
            | OK ne => OK (nn, ne)
            end
        end
    | AsHeteroData h =>
        OK (sum_values (hd_num_nodes h), count_pairs (hd_edge_index h))
    end.

Fixpoint summary_loop (i : nat) (snapshots : list Snapshot) (r : Report)
    : result Report :=
    match snapshots with
    | [] => OK r
    | snap :: rest =>
        match counts_of snap with
        | Raise e => Raise e
        | OK (nn_val, ne_val) =>
            summary_loop (S i) rest
              {| report_lines := report_lines r ++ [mk_line i nn_val ne_val];
                 report_count := S (report_count r);
                 report_total_nodes := (report_total_nodes r + nn_val)%nat;
                 report_total_edges := (report_total_edges r + ne_val)%nat |}
        end
    end.

(** [summary(snapshots)] *)
Definition summary (snapshots : list Snapshot) : result Report :=
    summary_loop 0 snapshots (mk_report [] 0 0 0).


End TemporalBuilder.

(** ** Vocabulary of the specification *)

Module Registry.

(** A sequence of [get_or_create] calls, oldest first. *)
Definition register_all (requests : list (key * key)) (nm : registry) : registry :=
    foldl (λ nm p, (get_or_create p.1 p.2 nm).2) nm requests.

(** The distinct ids requested for a type. *)
Definition ids_seen (t : key) (requests : list (key * key)) : gset key :=
    list_to_set (snd <$> filter (λ p, p.1 = t) requests).

(** The indices of a type are exactly 0 .. k-1, each given to one id. *)
Definition dense_mapping (m : gmap key nat) : Prop :=
    (∀ n, (∃ i, m !! i = Some n) ↔ (n < size m)%nat)
    ∧ (∀ i j n, m !! i = Some n → m !! j = Some n → i = j).

Definition dense (nm : registry) : Prop :=
    ∀ t m, nm !! t = Some m → dense_mapping m.

(** Every identity of [nm] is in [nm'] with the same index. *)
Definition extends (nm nm' : registry) : Prop :=
    ∀ t i n, index_of nm t i = Some n → index_of nm' t i = Some n.

End Registry.

Module Requests.
Import Polars Reference Assembler Registry.

(** The builder [b'] is [b] after the given registrations. *)
Definition effect (requests : list (key * key)) (b b' : Builder) : Prop :=
    node_mapping b' = register_all requests (node_mapping b)
    ∧ time_window b' = time_window b.

(** [c] returns normally from every state, and registers [requests]. *)
Definition runs {A} (c : M Builder A) (requests : list (key * key)) : Prop :=
    ∀ b, ∃ a b', c b = (OK a, b') ∧ effect requests b b'.

Definition runs_locally {L A} (c : M (Builder * L) A) (requests : list (key * key))
    : Prop :=
    ∀ b l, ∃ a b' l', c (b, l) = (OK a, (b', l')) ∧ effect requests b b'.

(** The pairs registered by lines 170-175. *)
Definition node_requests (df : DataFrame) : list (key * key) :=
    flat_map (λ g, (λ r, (g.1, col_id r)) <$> g.2)
             (group_rows col_resourceType (rows df)).

(** The pairs registered for the candidates of one relation. *)
Definition cand_requests (cands : list (key * key * string * string))
    : list (key * key) :=
    flat_map (λ c, [(c.1.1.1, c.1.1.2); (Some c.1.2, Some c.2)]) cands.

Definition relation_requests (df : DataFrame) (ref_field : string)
    : list (key * key) :=
    match edge_candidates df (ref_field +:+ "_ref") with
    | OK candidates =>
        match parse_candidates (inferred_target_type ref_field) candidates with
        | OK cands => cand_requests cands
        | Raise _ => []
        end
    | Raise _ => []
    end.

(** How the body of a relation ends: it depends on the frame alone. *)
Definition relation_outcome (df : DataFrame) (ref_field : string) : result unit :=
    match edge_candidates df (ref_field +:+ "_ref") with
    | OK [] => OK tt
    | OK candidates =>
        match parse_candidates (inferred_target_type ref_field) candidates with
        | OK _ => OK tt
        | Raise e => Raise e
        end
    | Raise e => Raise e
    end.



Definition frame_requests (df : DataFrame) : list (key * key) :=
    node_requests df ++ flat_map (λ c, relation_requests df c.1) relation_configs.

(** The windows of lines 120-137. *)
Definition windows_of (every : positive) (data_dicts : list DataDict)
    : list (Z * DataFrame) :=
    let df := TemporalBuilder.windowed_frame every data_dicts in
    sub_frames df (group_rows col_snapshot_idx (rows df)).


(** The frame has the columns the assembler reads outside any [try]. *)
Definition well_formed (df : DataFrame) : Prop :=
    has_column df "resourceType" = true
    ∧ has_column df "id" = true
    ∧ has_column df "timestamp" = true.

End Requests.

Module SnapshotView.

(** The window start a snapshot carries. *)
Definition snapshot_timestamp (snap : Snapshot) : option Z :=
    match snap with
    | AsDict d => match d !! "timestamp" with Some (PTime t) => Some t | _ => None end
    | AsHeteroData h => hd_attrs h !! "timestamp"
    end.

(** The per-type node counts a snapshot carries. *)
Definition snapshot_num_nodes (snap : Snapshot) : gmap key nat :=
    match snap with
    | AsDict d => match d !! "num_nodes" with Some (PCounts c) => c | _ => ∅ end
    | AsHeteroData h => hd_num_nodes h
    end.

(** The edge lists a snapshot carries. *)
Definition snapshot_edges (snap : Snapshot) : edges :=
    match snap with
    | AsDict d => match d !! "edge_index_dict" with Some (PEdges e) => e | _ => ∅ end
    | AsHeteroData h => hd_edge_index h
    end.


End SnapshotView.

(** ** The documented example *)

Module Example.

(** A patient and a condition on one day, a medication request on the
    next (examples/01_temporal_graph.py). *)
Definition patient_history : list resource :=
    [ [("resourceType", VStr "Patient"); ("id", VStr "p1");
       ("recordedDate", VStr "2025-01-01T08:00:00Z")];
      [("resourceType", VStr "Condition"); ("id", VStr "c1");
       ("subject", VDict [("reference", VStr "Patient/p1")]);
       ("code", VDict [("text", VStr "Sepsis")]);
       ("recordedDate", VStr "2025-01-01T09:00:00Z")];
      [("resourceType", VStr "MedicationRequest"); ("id", VStr "m1");
       ("subject", VDict [("reference", VStr "Patient/p1")]);
       ("code", VDict [("text", VStr "Antibiotic")]);
       ("authoredOn", VStr "2025-01-02T09:00:00Z")] ].

(** A window whose frame has no [encounter_ref] column. *)
Definition frame_without_encounter : DataFrame :=
    {| columns := ["resourceType"; "id"; "timestamp"; "subject_ref"; "payload"];
       rows := [ {| col_resourceType := Some "Condition";
                    col_id := Some "c1";
                    col_timestamp := 1735722000000000;
                    col_subject_ref := Some "Patient/p1";
                    col_encounter_ref := None;
                    col_payload := [];
                    col_snapshot_idx := 1735689600000000 |} ] |}.

End Example.

(** ** Vocabulary for the edge lists *)

Module EdgeView.
Import Polars Reference Assembler.

(** The parsed candidates of one relation in a window: the rows whose
    reference is not null, as (source type, source id, target type,
    target id). *)
Definition window_candidates (df : DataFrame) (ref_field : string)
    : list (key * key * string * string) :=
    match edge_candidates df (ref_field +:+ "_ref") with
    | OK candidates =>
        match parse_candidates (inferred_target_type ref_field) candidates with
        | OK cands => cands
        | Raise _ => []
        end
    | Raise _ => []
    end.

Definition source_of (c : key * key * string * string) : key * key :=
    (c.1.1.1, c.1.1.2).

Definition target_of (c : key * key * string * string) : key * key :=
    (Some c.1.2, Some c.2).

(** The candidates that go from type [s] to type [t], in row order. *)
Definition matching (s t : key) (cands : list (key * key * string * string))
    : list (key * key * string * string) :=
    filter (λ c, c.1.1.1 = s ∧ Some c.1.2 = t) cands.

(** The index a registered pair has, 0 when it has none. *)
Definition idx (nm : registry) (p : key * key) : nat :=
    default 0%nat (index_of nm p.1 p.2).

(** One turn of the loop at lines 315-324 when both ends are registered. *)
Definition add_edge (nm : registry) (edge_rel : string) (e : edges)
      (c : key * key * string * string) : edges :=
    let k := (c.1.1.1, edge_rel, Some c.1.2) in
    append_tgt k (idx nm (target_of c)) (append_src k (idx nm (source_of c)) (ensure_key k e)).

(** [o] is the edge list of the candidates [m]: absent when there is
    none, else the registry indices of their two ends, in order. *)
Definition edge_list_of (nm : registry) (m : list (key * key * string * string))
      (o : option (list nat * list nat)) : Prop :=
    match m with
    | [] => o = None
    | _ => ∃ srcs tgts,
             o = Some (srcs, tgts)
             ∧ Forall2 (λ c n, index_of nm (source_of c).1 (source_of c).2 = Some n) m srcs
             ∧ Forall2 (λ c n, index_of nm (target_of c).1 (target_of c).2 = Some n) m tgts
    end.

(** [e] holds exactly the edges of the window [df], with the indices of
    the registry [nm]. *)
Definition resolved (nm : registry) (df : DataFrame) (e : edges) : Prop :=
    (∀ (ref_field edge_rel : string) (s t : key),
       (ref_field, edge_rel) ∈ relation_configs →
       edge_list_of nm (matching s t (window_candidates df ref_field))
                    (e !! (s, edge_rel, t)))
    ∧ (∀ (s : key) (edge_rel : string) (t : key),
         edge_rel ∉ relation_configs.*2 → e !! (s, edge_rel, t) = None).

(** The count a snapshot reports for a type, 0 when it reports none. *)
Definition count_in (snap : Snapshot) (t : key) : nat :=
    default 0%nat (SnapshotView.snapshot_num_nodes snap !! t).

End EdgeView.

(** ** Vocabulary for a run over several windows *)

Module Run.
Import Assembler.

(** The assembler, run on the windows in turn from the builder [b], gave
    the snapshots [snaps] and left the builder [b']. *)
Fixpoint chain (torch : bool) (b : Builder) (windows : list (Z * DataFrame))
      (snaps : list Snapshot) (b' : Builder) : Prop :=
    match windows, snaps with
    | [], [] => b' = b
    | w :: windows', snap :: snaps' =>
        ∃ b1, _construct_hetero_data torch w.2 w.1 b = (OK snap, b1)
              ∧ chain torch b1 windows' snaps' b'
    | _, _ => False
    end.

(** Every type has at least as many nodes in [s2] as in [s1]. *)
Definition counts_le (s1 s2 : Snapshot) : Prop :=
    ∀ t, (EdgeView.count_in s1 t ≤ EdgeView.count_in s2 t)%nat.

(** Two snapshots carry the same window start and the same edge lists. *)
Definition same_graph (s1 s2 : Snapshot) : Prop :=
    SnapshotView.snapshot_timestamp s1 = SnapshotView.snapshot_timestamp s2
    ∧ SnapshotView.snapshot_edges s1 = SnapshotView.snapshot_edges s2.

End Run.

(** ** The events of an input *)

Module Events.
Import Normalizer.

(** The event a record gives, if any. *)
Definition event_of (fromisoformat : string → option Datetime.datetime)
      (res : resource) : option DataDict :=
    match normalize fromisoformat res with
    | OK (Some d) => Some d
    | _ => None
    end.



(** The record is normalized without an exception. *)
Definition normalizes (fromisoformat : string → option Datetime.datetime)
      (res : resource) : Prop :=
    ∃ o, normalize fromisoformat res = OK o.

End Events.

(** * Properties *)

(** ** Facts about the string operations *)

Module StringFacts.
Import PyStr.

Lemma split_nonempty c s : split c s ≠ [].
Proof. destruct s as [|a s]; simpl; [done|]. destruct (Ascii.eqb a c); [done|]. by destruct (split c s). Qed.

Lemma split_free c s : free_of c s = true → split c s = [s].
Proof.
    induction s as [|a s IH]; simpl; [done|].
    intros [Ha Hs]%andb_true_iff. apply negb_true_iff in Ha. rewrite Ha, (IH Hs). done.
Qed.

Lemma split_app c a b : split c (a +:+ String c b) = split c a ++ split c b.
Proof.
    induction a as [|x a IH]; simpl.
    - by rewrite Ascii.eqb_refl.
    - destruct (Ascii.eqb x c); [by rewrite IH|].
      rewrite IH. destruct (split c a) eqn:E; [by apply split_nonempty in E|done].
Qed.

Lemma prefix_empty s : String.prefix "" s = true.
Proof. by destruct s. Qed.

Lemma contains_char c s : contains (String c EmptyString) s = negb (free_of c s).
Proof.
    induction s as [|a s IH]; simpl; [done|].
    rewrite IH, prefix_empty. destruct (ascii_dec c a) as [->|Hne].
    - by rewrite Ascii.eqb_refl.
    - destruct (Ascii.eqb a c) eqn:E; [apply Ascii.eqb_eq in E; congruence|]. done.
Qed.

Lemma free_of_app c a b : free_of c (a +:+ b) = free_of c a && free_of c b.
Proof. induction a as [|x a IH]; simpl; [done|]. by rewrite IH, andb_assoc. Qed.

Lemma contains_unfold sub s :
    contains sub s =
    String.prefix sub s || match s with EmptyString => false | String _ s' => contains sub s' end.
Proof. by destruct s. Qed.

Lemma startswith_contains p s : startswith p s = true → contains p s = true.
Proof. unfold startswith. intros H. by rewrite contains_unfold, H. Qed.

Lemma string_app_assoc (a b c : string) : (a +:+ b) +:+ c = a +:+ (b +:+ c).
Proof.
    induction a as [|x a IH]; [done|].
    change (String x ((a +:+ b) +:+ c) = String x (a +:+ b +:+ c)). by f_equal.
Qed.

Lemma index_from_end_1 {A} (l : list A) x : index_from_end (l ++ [x]) 1 = OK x.
Proof. unfold index_from_end. by rewrite rev_unit. Qed.

Lemma index_from_end_2 {A} (l : list A) y x : index_from_end (l ++ [y; x]) 2 = OK y.
Proof.
    unfold index_from_end. replace (l ++ [y; x]) with ((l ++ [y]) ++ [x]) by by rewrite <- app_assoc.
    by rewrite !rev_unit.
Qed.

Lemma split_two c s :
    free_of c s = false → ∃ h t l, split c s = h :: t :: l.
Proof.
    induction s as [|a s IH]; simpl; [done|].
    destruct (Ascii.eqb a c); simpl.
    - intros _. destruct (split c s) as [|t l] eqn:E; [by apply split_nonempty in E|]. by eexists _, _, _.
    - intros F. destruct (IH F) as (h & t & l & ->). by eexists _, _, _.
Qed.

(** The last segment of a split is the text after the final separator. *)
Lemma split_last c s :
    ∃ l, split c s = l ++ [Reference.text_after_final c s].
Proof.
    induction s as [|a s [l IH]]; simpl.
    - by exists [].
    - destruct (free_of c s) eqn:F.
      + rewrite (split_free _ _ F). destruct (Ascii.eqb a c); [by exists [EmptyString]|by exists []].
      + destruct (Ascii.eqb a c).
        * exists (EmptyString :: l). by rewrite IH.
        * destruct (split_two _ _ F) as (h & t & l' & E). rewrite E in IH |- *.
          destruct l as [|h' l]; [done|].
          injection IH as -> ->. by exists (String a h' :: l).
Qed.

Lemma last_of_split c s :
    index_from_end (split c s) 1 = OK (Reference.text_after_final c s).
Proof. destruct (split_last c s) as [l ->]. apply index_from_end_1. Qed.
End StringFacts.

Module ReferenceFacts.
Import PyStr Reference StringFacts.

Lemma hint_of_segments pre t i :
    free_of "/" t = true → free_of "/" i = true →
    (pre = "" ∨ ∃ q, pre = q +:+ "/") →
    index_from_end (split "/" (pre +:+ t +:+ "/" +:+ i)) 2 = OK t
    ∧ index_from_end (split "/" (pre +:+ t +:+ "/" +:+ i)) 1 = OK i.
Proof.
    intros Ht Hi Hpre.
    assert (∃ l, split "/" (pre +:+ t +:+ "/" +:+ i) = l ++ [t; i]) as [l ->].
    { replace (pre +:+ t +:+ "/" +:+ i) with ((pre +:+ t) +:+ String "/" i)
        by apply string_app_assoc.
      rewrite split_app, (split_free _ i Hi).
      destruct Hpre as [->|[q ->]].
      - change ("" +:+ t) with t. rewrite (split_free _ t Ht). by exists [].
      - replace ((q +:+ "/") +:+ t) with (q +:+ String "/" t)
          by (symmetry; apply (string_app_assoc q "/" t)).
        rewrite split_app, (split_free _ t Ht). exists (split "/" q).
        by rewrite <- app_assoc. }
    split; [apply index_from_end_2|].
    replace (l ++ [t; i]) with ((l ++ [t]) ++ [i]) by (by rewrite <- app_assoc).
    apply index_from_end_1.
Qed.
End ReferenceFacts.

(** ** Reference resolution *)

Module ReferenceSpec.
Import PyStr Reference StringFacts ReferenceFacts.

Lemma hint_without_slash s :
    contains "/" s = false → tgt_type_hint s = OK None.
Proof. unfold tgt_type_hint. by intros ->. Qed.

Lemma hint_of_urn s :
    startswith "urn:" s = true → tgt_type_hint s = OK None.
Proof. unfold tgt_type_hint. intros ->. by rewrite andb_false_r. Qed.

Lemma id_of_urn s :
    contains "urn:" s = true → tgt_id s = OK (text_after_final ":" s).
Proof. unfold tgt_id. intros ->. apply last_of_split. Qed.

(** The two lambdas never raise: a string that contains ["/"] splits in
    at least two segments. *)
Lemma resolve_total inferred s : ∃ t i, resolve inferred s = OK (t, i).
Proof.
    unfold resolve, tgt_type_hint, tgt_id.
    assert (∃ i, (if contains "urn:" s then index_from_end (split ":" s) 1
                  else if contains "/" s then index_from_end (split "/" s) 1
                  else OK s) = OK i) as [i ->].
    { repeat case_match; rewrite ?last_of_split; eauto. }
    destruct (contains "/" s) eqn:C; simpl; [|eauto].
    destruct (negb (startswith "urn:" s)); [|eauto].
    rewrite contains_char in C. apply negb_true_iff in C.
    destruct (split_two _ _ C) as (h & t & l & ->).
    unfold index_from_end.
    destruct (rev (h :: t :: l)) as [|x [|y r]] eqn:E; simpl; eauto.
    - apply (f_equal length) in E. rewrite length_rev in E. done.
    - apply (f_equal length) in E. rewrite length_rev in E. done.
Qed.

(** C3, the claim as stated fails: on an absolute reference the type is
    the segment before the final ["/"], not all the text before it. *)
Lemma C3_type_is_one_segment :
    resolve "Patient" "http://example.org/fhir/Patient/42" = OK ("Patient", "42")
    ∧ resolve_as_specified "Patient" "http://example.org/fhir/Patient/42"
      = ("http://example.org/fhir/Patient", "42")
    ∧ resolve "Patient" "http://example.org/fhir/Patient/42"
      ≠ OK (resolve_as_specified "Patient" "http://example.org/fhir/Patient/42").
Proof. vm_compute. by repeat split. Qed.

(** C3, amended: a reference that contains ["/"] and does not start with
    ["urn:"] takes its type from the segment between the last two ["/"]
    (all the text before the ["/"] when there is only one) and, when
    ["urn:"] does not occur in it, its id from the text after the final
    ["/"]; a reference that starts with ["urn:"] takes its id from the text
    after the final [":"] and the inferred type; a reference with neither
    ["/"] nor ["urn:"] is its own id, with the inferred type. *)
Theorem C3_reference_resolution (inferred : string) :
    (∀ pre t i : string,
       free_of "/" t = true → free_of "/" i = true →
       (pre = "" ∨ ∃ q, pre = q +:+ "/") →
       startswith "urn:" (pre +:+ t +:+ "/" +:+ i) = false →
       tgt_type_hint (pre +:+ t +:+ "/" +:+ i) = OK (Some t)
       ∧ (contains "urn:" (pre +:+ t +:+ "/" +:+ i) = false →
          resolve inferred (pre +:+ t +:+ "/" +:+ i) = OK (t, i)))
    ∧ (∀ s, startswith "urn:" s = true →
            resolve inferred s = OK (inferred, text_after_final ":" s))
    ∧ (∀ s, contains "/" s = false → contains "urn:" s = false →
            resolve inferred s = OK (inferred, s))
    ∧ resolve inferred "Patient/42" = OK ("Patient", "42")
    ∧ resolve inferred "urn:uuid:abc-1" = OK (inferred, "abc-1")
    ∧ resolve inferred "99" = OK (inferred, "99").
Proof.
    split; [|split; [|split; [|by repeat split]]].
    - intros pre t i Ht Hi Hpre Hnot.
      destruct (hint_of_segments pre t i) as [H2 H1]; [done..|].
      assert (contains "/" (pre +:+ t +:+ "/" +:+ i) = true) as Hc.
      { rewrite contains_char, !free_of_app. simpl. by rewrite !andb_false_r. }
      unfold resolve, tgt_type_hint, tgt_id. rewrite H2, H1, Hnot, Hc.
      split; [done|]. by intros ->.
    - intros s Hs. unfold resolve.
      by rewrite (hint_of_urn _ Hs), (id_of_urn _ (startswith_contains _ _ Hs)).
    - intros s Hs Hurn. unfold resolve, tgt_id.
      by rewrite (hint_without_slash _ Hs), Hurn, Hs.
Qed.

Lemma C3_reference_resolution_witness :
    tgt_type_hint "http://example.org/fhir/Patient/42" = OK (Some "Patient")
    ∧ resolve "Patient" "http://example.org/fhir/Patient/42" = OK ("Patient", "42")
    ∧ resolve "Encounter" "urn:uuid:abc-1" = OK ("Encounter", "abc-1")
    ∧ resolve "Patient" "99" = OK ("Patient", "99").
Proof.
    destruct (C3_reference_resolution "Patient") as (Hslash & _ & Hplain & _).
    destruct (C3_reference_resolution "Encounter") as (_ & Hurn & _).
    destruct (Hslash "http://example.org/fhir/" "Patient" "42") as [Hhint Hres];
      [reflexivity | reflexivity | right; by exists "http://example.org/fhir" | reflexivity |].
    split; [exact Hhint|].
    split; [apply Hres; reflexivity|].
    split; [apply (Hurn "urn:uuid:abc-1"); reflexivity|].
    apply (Hplain "99"); reflexivity.
Defined.

End ReferenceSpec.

(** ** The record normalizer *)

Module NormalizerSpec.
Import PyStr PyDict Datetime Normalizer.









Lemma select_timestamp_chain res :
    select_timestamp res = or_chain (field_value res <$> FIELD_ORDER).
Proof.
    unfold select_timestamp, por, FIELD_ORDER. cbn.
    repeat (case_match; try done).
Qed.

(** An [or] chain returns its first truthy operand. *)
Lemma or_chain_first (operands : list (result value)) (i : nat) (v : value) :
    operands !! i = Some (OK v) → truthy v = true →
    (∀ j, (j < i)%nat → ∃ w, operands !! j = Some (OK w) ∧ truthy w = false) →
    or_chain operands = OK v.
Proof.
    revert i. induction operands as [|r rest IH]; intros i Hi Ht Hb; [done|].
    destruct i as [|i].
    - injection Hi as ->. simpl. rewrite Ht. by destruct rest.
    - destruct (Hb 0%nat ltac:(lia)) as (w & [= ->] & Hw).
      simpl. rewrite Hw. destruct rest as [|r' rest']; [done|].
      apply (IH i); [done..|].
      intros j Hj. apply (Hb (S j)). lia.
Qed.

(** C4, the claim as stated fails: a field that is set to an empty string
    is not null, and the chain passes over it. *)
Lemma C4_empty_string_is_skipped :
    select_timestamp [("recordedDate", VStr ""); ("effectiveDateTime", VStr "2020-01-01")]
      = OK (VStr "2020-01-01")
    ∧ timestamp_as_specified
        [("recordedDate", VStr ""); ("effectiveDateTime", VStr "2020-01-01")]
      = OK (VStr "").
Proof. by vm_compute. Qed.

(** C4, amended: the timestamp is the value of the first field, in the
    order recordedDate, effectiveDateTime, issued, authoredOn,
    period.start, birthDate, date, whose value is truthy (neither null nor
    empty); so a record whose recordedDate is truthy uses it whatever
    effectiveDateTime holds. *)
Theorem C4_first_truthy_field (res : resource) (i : nat) (name : string) (v : value) :
    FIELD_ORDER !! i = Some name →
    field_value res name = OK v →
    truthy v = true →
    (∀ (j : nat) (earlier : string),
       (j < i)%nat → FIELD_ORDER !! j = Some earlier →
       ∃ w, field_value res earlier = OK w ∧ truthy w = false) →
    select_timestamp res = OK v.
Proof.
    intros Hname Hv Ht Hbefore.
    rewrite select_timestamp_chain.
    apply (or_chain_first _ i).
    - by rewrite list_lookup_fmap, Hname; simpl; rewrite Hv.
    - done.
    - intros j Hj.
      destruct (FIELD_ORDER !! j) as [earlier|] eqn:E.
      + destruct (Hbefore j earlier Hj E) as (w & Hw & Hf).
        exists w. by rewrite list_lookup_fmap, E; simpl; rewrite Hw.
      + apply lookup_ge_None in E. apply lookup_lt_Some in Hname. lia.
Qed.

Lemma C4_first_truthy_field_witness :
    select_timestamp
      [("resourceType", VStr "Condition"); ("id", VStr "c1");
       ("effectiveDateTime", VStr "2021-05-05"); ("recordedDate", VStr "2020-01-01")]
    = OK (VStr "2020-01-01")
    ∧ select_timestamp [("recordedDate", VStr ""); ("period", VDict [("start", VStr "2019")])]
      = OK (VStr "2019").
Proof.
    split.
    - apply (C4_first_truthy_field _ 0 "recordedDate"); [reflexivity..|].
      intros j e Hj. lia.
    - apply (C4_first_truthy_field _ 4 "period.start"); [reflexivity..|].
      intros j e Hj He.
      do 4 (destruct j as [|j]; [injection He as <-; eexists; split; reflexivity|]).
      lia.
Defined.



End NormalizerSpec.

(** ** The node registry *)

Module RegistryFacts.
Import Registry.

Lemma get_or_create_existing (nm : registry) t i n :
    index_of nm t i = Some n → get_or_create t i nm = (n, nm).
Proof.
    unfold index_of, get_or_create. intros H.
    destruct (nm !! t) as [m|] eqn:Hm; simpl in H; [|done].
    destruct (decide (Some m = None)) as [|_]; [done|].
    rewrite (lookup_total_correct _ _ _ Hm).
    destruct (decide (m !! i = None)) as [|_]; [congruence|].
    rewrite (lookup_total_correct _ _ _ H).
    by rewrite insert_id.
Qed.

(** The mapping of a type, empty when the type was never seen. *)
Lemma get_or_create_fresh (nm : registry) t i :
    index_of nm t i = None →
    get_or_create t i nm
    = (node_count nm t, <[t := <[i := node_count nm t]> (default ∅ (nm !! t))]> nm).
Proof.
    unfold index_of, get_or_create, node_count. intros H.
    destruct (nm !! t) as [m|] eqn:Hm; simpl in *.
    - destruct (decide (Some m = None)) as [|_]; [done|].
      rewrite (lookup_total_correct _ _ _ Hm).
      destruct (decide (m !! i = None)) as [_|]; [|done].
      by rewrite lookup_total_insert_eq.
    - rewrite lookup_total_insert_eq.
      case_decide; [|done].
      by rewrite lookup_total_insert_eq, insert_insert_eq.
Qed.

Lemma index_of_insert (nm : registry) t m i n t' i' :
    index_of (<[t := <[i := n]> m]> nm) t' i'
    = if decide (t = t')
      then (if decide (i = i') then Some n else m !! i')
      else index_of nm t' i'.
Proof.
    unfold index_of. destruct (decide (t = t')) as [->|Ht].
    - rewrite lookup_insert_eq. simpl. rewrite lookup_insert. done.
    - by rewrite lookup_insert_ne.
Qed.

Lemma index_of_default (nm : registry) t i :
    default ∅ (nm !! t) !! i = index_of nm t i.
Proof. unfold index_of. by destruct (nm !! t). Qed.

Lemma get_or_create_cases (nm : registry) t i :
    (∃ n, index_of nm t i = Some n ∧ get_or_create t i nm = (n, nm))
    ∨ (index_of nm t i = None
       ∧ get_or_create t i nm
         = (node_count nm t, <[t := <[i := node_count nm t]> (default ∅ (nm !! t))]> nm)).
Proof.
    destruct (index_of nm t i) as [n|] eqn:E.
    - left. exists n. split; [done|]. by apply get_or_create_existing.
    - right. split; [done|]. by apply get_or_create_fresh.
Qed.

(** After a call the pair is registered with the index returned. *)
Lemma get_or_create_registered (nm : registry) t i :
    index_of (get_or_create t i nm).2 t i = Some (get_or_create t i nm).1.
Proof.
    destruct (get_or_create_cases nm t i) as [(n & H & ->)|[H ->]]; simpl; [done|].
    rewrite index_of_insert. by rewrite !decide_True.
Qed.

Lemma get_or_create_extends (nm : registry) t i :
    extends nm (get_or_create t i nm).2.
Proof.
    intros t' i' n H.
    destruct (get_or_create_cases nm t i) as [(n' & H' & ->)|[H' ->]]; simpl; [done|].
    rewrite index_of_insert. destruct (decide (t = t')) as [<-|]; [|done].
    destruct (decide (i = i')) as [<-|]; [congruence|].
    by rewrite index_of_default.
Qed.


Lemma extends_refl nm : extends nm nm.
Proof. by intros t i n. Qed.

Lemma extends_trans nm1 nm2 nm3 : extends nm1 nm2 → extends nm2 nm3 → extends nm1 nm3.
Proof. intros H1 H2 t i n H. by apply H2, H1. Qed.

Lemma register_all_cons t i reqs nm :
    register_all ((t, i) :: reqs) nm = register_all reqs (get_or_create t i nm).2.
Proof. done. Qed.

Lemma register_all_app r1 r2 nm :
    register_all (r1 ++ r2) nm = register_all r2 (register_all r1 nm).
Proof. unfold register_all. by rewrite foldl_app. Qed.

Lemma register_all_extends reqs nm : extends nm (register_all reqs nm).
Proof.
    revert nm. induction reqs as [|[t i] reqs IH]; intros nm; [apply extends_refl|].
    rewrite register_all_cons.
    eapply extends_trans; [apply get_or_create_extends|apply IH].
Qed.

(** Registering pairs that are all present changes nothing. *)
Lemma register_all_present reqs nm :
    Forall (λ p, is_Some (index_of nm p.1 p.2)) reqs → register_all reqs nm = nm.
Proof.
    induction 1 as [|[t i] reqs [n Hn] _ IH]; [done|].
    rewrite register_all_cons. simpl in Hn.
    by rewrite (get_or_create_existing _ _ _ _ Hn).
Qed.

Lemma register_all_registers reqs nm :
    Forall (λ p, is_Some (index_of (register_all reqs nm) p.1 p.2)) reqs.
Proof.
    revert nm. induction reqs as [|[t i] reqs IH]; intros nm; [done|].
    rewrite register_all_cons. constructor; [|apply IH]. simpl.
    eexists. apply register_all_extends, get_or_create_registered.
Qed.

Lemma register_all_idempotent reqs nm :
    register_all reqs (register_all reqs nm) = register_all reqs nm.
Proof. apply register_all_present, register_all_registers. Qed.

Lemma register_all_twice reqs nm :
    register_all (reqs ++ reqs) nm = register_all reqs nm.
Proof. by rewrite register_all_app, register_all_idempotent. Qed.

(** *** Density *)

Lemma dense_mapping_empty : dense_mapping ∅.
Proof.
    split.
    - intros n. rewrite map_size_empty. split; [|lia].
      intros [i Hi]. by rewrite lookup_empty in Hi.
    - intros i j n Hi. by rewrite lookup_empty in Hi.
Qed.

Lemma dense_mapping_insert (m : gmap key nat) i :
    dense_mapping m → m !! i = None → dense_mapping (<[i := size m]> m).
Proof.
    intros [Himg Hinj] Hi. split.
    - intros n. rewrite map_size_insert_None by done. split.
      + intros [j Hj]. rewrite lookup_insert in Hj. case_decide.
        * injection Hj as <-. lia.
        * assert (n < size m)%nat; [|lia]. apply Himg. eauto.
      + intros Hn. destruct (decide (n = size m)) as [->|].
        * exists i. by rewrite lookup_insert_eq.
        * destruct (proj2 (Himg n)) as [j Hj]; [lia|].
          exists j. rewrite lookup_insert_ne; [done|]. congruence.
    - intros j1 j2 n. rewrite !lookup_insert. repeat case_decide; try congruence.
      + intros [= <-] H2. assert (size m < size m)%nat; [|lia]. apply Himg. eauto.
      + intros H1 [= <-]. assert (size m < size m)%nat; [|lia]. apply Himg. eauto.
      + apply Hinj.
Qed.

Lemma node_count_size (nm : registry) t :
    node_count nm t = size (default ∅ (nm !! t)).
Proof. unfold node_count. destruct (nm !! t); [done|]. symmetry. apply map_size_empty. Qed.

Lemma dense_default (nm : registry) t :
    dense nm → dense_mapping (default ∅ (nm !! t)).
Proof.
    intros H. destruct (nm !! t) as [m|] eqn:E; simpl; [by apply (H t)|].
    apply dense_mapping_empty.
Qed.

Lemma dense_empty : dense ∅.
Proof. intros t m H. by rewrite lookup_empty in H. Qed.

Lemma get_or_create_dense (nm : registry) t i :
    dense nm → dense (get_or_create t i nm).2.
Proof.
    intros Hd.
    destruct (get_or_create_cases nm t i) as [(n & H & ->)|[H ->]]; simpl; [done|].
    intros t' m'. rewrite lookup_insert. case_decide; [|apply Hd].
    intros [= <-]. rewrite node_count_size.
    apply dense_mapping_insert; [by apply dense_default|].
    by rewrite index_of_default.
Qed.

Lemma register_all_dense reqs nm : dense nm → dense (register_all reqs nm).
Proof.
    revert nm. induction reqs as [|[t i] reqs IH]; intros nm Hd; [done|].
    rewrite register_all_cons. by apply IH, get_or_create_dense.
Qed.

(** The indices of a type in a dense registry. *)
Lemma dense_indices (nm : registry) t n :
    dense nm → (∃ i, index_of nm t i = Some n) ↔ (n < node_count nm t)%nat.
Proof.
    intros Hd. rewrite node_count_size.
    destruct (dense_default nm t Hd) as [Himg _]. rewrite <- Himg.
    by setoid_rewrite index_of_default.
Qed.


(** *** The ids behind the count *)

Lemma get_or_create_dom (nm : registry) t i t' :
    dom (default ∅ ((get_or_create t i nm).2 !! t'))
    = dom (default ∅ (nm !! t')) ∪ (if decide (t = t') then {[i]} else ∅).
Proof.
    destruct (get_or_create_cases nm t i) as [(n & H & ->)|[H ->]]; simpl.
    - case_decide as E; [|set_solver]. subst t'.
      rewrite <- index_of_default in H.
      apply (elem_of_dom_2 (D := gset key)) in H. set_solver.
    - rewrite lookup_insert. case_decide as E; [|set_solver]. subst t'.
      simpl. rewrite dom_insert_L. set_solver.
Qed.

Lemma ids_seen_cons t t0 i reqs :
    ids_seen t ((t0, i) :: reqs)
    = (if decide (t0 = t) then {[i]} else ∅) ∪ ids_seen t reqs.
Proof.
    unfold ids_seen. rewrite filter_cons. simpl.
    case_decide; [by rewrite fmap_cons, list_to_set_cons|set_solver].
Qed.

Lemma register_all_dom (reqs : list (key * key)) (nm : registry) (t : key) :
    dom (default ∅ (register_all reqs nm !! t))
    = dom (default ∅ (nm !! t)) ∪ ids_seen t reqs.
Proof.
    revert nm. induction reqs as [|[t0 i] reqs IH]; intros nm.
    - unfold ids_seen. simpl. set_solver.
    - rewrite register_all_cons, IH, get_or_create_dom, ids_seen_cons. set_solver.
Qed.


End RegistryFacts.

(** ** What running the builder does to its state *)

Module BuilderFacts.
Import Polars Reference Assembler Registry RegistryFacts Requests.
Import TemporalBuilder SnapshotView.

Lemma effect_nil b : effect [] b b.
Proof. by split. Qed.

Lemma effect_app r1 r2 b b1 b2 :
    effect r1 b b1 → effect r2 b1 b2 → effect (r1 ++ r2) b b2.
Proof.
    intros [H1 W1] [H2 W2]. split; [|congruence].
    by rewrite register_all_app, <- H1.
Qed.

Lemma effect_twice r b b1 b2 : effect r b b1 → effect r b1 b2 → effect r b b2.
Proof.
    intros [H1 W1] [H2 W2]. split; [|congruence].
    by rewrite H2, H1, register_all_idempotent.
Qed.

Lemma runs_ret {A} (a : A) : runs (ret a) [].
Proof. intros b. exists a, b. split; [done|apply effect_nil]. Qed.

Lemma runs_gets {A} (f : Builder → A) : runs (gets f) [].
Proof. intros b. exists (f b), b. split; [done|apply effect_nil]. Qed.

Lemma runs_bind {A B} (c : M Builder A) (k : A → M Builder B) r1 r2 :
    runs c r1 → (∀ a, runs (k a) r2) → runs (bind c k) (r1 ++ r2).
Proof.
    intros Hc Hk b. destruct (Hc b) as (a & b1 & E1 & F1).
    destruct (Hk a b1) as (x & b2 & E2 & F2).
    exists x, b2. unfold bind. rewrite E1. split; [done|by eapply effect_app].
Qed.

Lemma runs_get_node_index t i : runs (_get_node_index t i) [(t, i)].
Proof.
    intros b. unfold _get_node_index.
    destruct (get_or_create t i (node_mapping b)) as [idx nm] eqn:E.
    eexists _, _. split; [done|]. split; [|done].
    change (nm = register_all [(t, i)] (node_mapping b)).
    by rewrite register_all_cons, E.
Qed.

Lemma runs_for_each {A B} (f : B → A → M Builder B) (req : A → list (key * key)) l acc :
    (∀ acc x, x ∈ l → runs (f acc x) (req x)) →
    runs (for_each f l acc) (flat_map req l).
Proof.
    revert acc. induction l as [|x l IH]; intros acc Hf; simpl.
    - apply runs_ret.
    - apply runs_bind; [apply Hf; by left|].
      intros a. apply IH. intros acc' y Hy. apply Hf. by right.
Qed.

Lemma runs_locally_ret {L A} (a : A) : runs_locally (L := L) (ret a) [].
Proof. intros b l. exists a, b, l. split; [done|apply effect_nil]. Qed.

Lemma runs_locally_bind {L A B} (c : M (Builder * L) A) (k : A → M (Builder * L) B) r1 r2 :
    runs_locally c r1 → (∀ a, runs_locally (k a) r2) → runs_locally (bind c k) (r1 ++ r2).
Proof.
    intros Hc Hk b l. destruct (Hc b l) as (a & b1 & l1 & E1 & F1).
    destruct (Hk a b1 l1) as (x & b2 & l2 & E2 & F2).
    exists x, b2, l2. unfold bind. rewrite E1. split; [done|by eapply effect_app].
Qed.

Lemma runs_locally_on_fst {L A} (c : M Builder A) r :
    runs c r → runs_locally (L := L) (on_fst c) r.
Proof.
    intros Hc b l. destruct (Hc b) as (a & b1 & E1 & F1).
    exists a, b1, l. unfold on_fst. by rewrite E1.
Qed.

Lemma runs_locally_modify {L} (f : L → L) : runs_locally (on_snd (modify f)) [].
Proof. intros b l. exists tt, b, (f l). split; [done|apply effect_nil]. Qed.

Lemma runs_locally_for_each {L A B} (f : B → A → M (Builder * L) B)
      (req : A → list (key * key)) l acc :
    (∀ acc x, runs_locally (f acc x) (req x)) →
    runs_locally (for_each f l acc) (flat_map req l).
Proof.
    intros Hf. revert acc. induction l as [|x l IH]; intros acc; simpl.
    - apply runs_locally_ret.
    - apply runs_locally_bind; [apply Hf|]. intros a. apply IH.
Qed.

Lemma runs_with_local {L A} (c : M (Builder * L) A) (l0 : L) r :
    runs_locally c r → runs (with_local l0 c) r.
Proof.
    intros Hc b. destruct (Hc b l0) as (a & b1 & l1 & E1 & F1).
    exists (a, l1), b1. unfold with_local. by rewrite E1.
Qed.

(** *** Node registration (lines 170-187) *)

Lemma bind_lift_ok {S A B} (a : A) (k : A → M S B) : bind (lift (OK a)) k = k a.
Proof. done. Qed.

Lemma runs_index_rows r_type (sub_df : DataFrame) acc :
    has_column sub_df "id" = true →
    runs (for_each (λ indices row,
                      (do i <- lift (row_id sub_df row);
                       do idx <- _get_node_index r_type i;
                       ret (indices ++ [idx]))%py) (rows sub_df) acc)
         ((λ r, (r_type, col_id r)) <$> rows sub_df).
Proof.
    intros Hid.
    replace ((λ r, (r_type, col_id r)) <$> rows sub_df)
      with (flat_map (λ r, [(r_type, col_id r)]) (rows sub_df)).
    2:{ induction (rows sub_df) as [|r l IH]; [done|]. cbn. by f_equal. }
    apply runs_for_each. intros acc' row _.
    unfold row_id. rewrite Hid, bind_lift_ok.
    change [(r_type, col_id row)] with ([(r_type, col_id row)] ++ []).
    apply runs_bind; [apply runs_get_node_index|]. intros; apply runs_ret.
Qed.

Lemma runs_index_nodes (df : DataFrame) (gs : list (key * list Row)) data :
    has_column df "id" = true →
    runs (index_nodes (sub_frames df gs) data)
         (flat_map (λ g, (λ r, (g.1, col_id r)) <$> g.2) gs).
Proof.
    intros Hid. unfold index_nodes, sub_frames.
    revert data. induction gs as [|[k g] gs IH]; intros data; simpl.
    - apply runs_ret.
    - apply runs_bind; [|intros; apply IH].
      rewrite <- (app_nil_r (_ <$> g)).
      apply runs_bind; [by apply (runs_index_rows k {| columns := columns df; rows := g |})|].
      intros indices. change (@nil (key * key)) with (@nil (key * key) ++ []).
      apply runs_bind; [apply runs_gets|]. intros; apply runs_ret.
Qed.

(** *** Edge resolution (lines 229-329) *)

Lemma runs_register_pass cands : runs (register_pass cands) (cand_requests cands).
Proof.
    unfold register_pass, cand_requests. apply runs_for_each.
    intros [si ti] [[[st i] tt] j] _. simpl.
    change [(st, i); (Some tt, Some j)] with ([(st, i)] ++ ([(Some tt, Some j)] ++ [])).
    apply runs_bind; [apply runs_get_node_index|]. intros s.
    apply runs_bind; [apply runs_get_node_index|]. intros; apply runs_ret.
Qed.

Lemma runs_edge_pass edge_rel cands :
    runs_locally (edge_pass edge_rel cands) (cand_requests cands).
Proof.
    unfold edge_pass, cand_requests. apply runs_locally_for_each.
    intros [] [[[st i] tt] j]. simpl.
    change [(st, i); (Some tt, Some j)]
      with ([] ++ ([(st, i)] ++ ([] ++ ([(Some tt, Some j)] ++ [])))).
    apply runs_locally_bind; [apply runs_locally_modify|]. intros _.
    apply runs_locally_bind; [apply runs_locally_on_fst, runs_get_node_index|]. intros s.
    apply runs_locally_bind; [apply runs_locally_modify|]. intros _.
    apply runs_locally_bind; [apply runs_locally_on_fst, runs_get_node_index|]. intros t.
    apply runs_locally_modify.
Qed.

(** The body of a relation either fails before it touches anything, or
    registers both ends of its candidates. *)
Lemma relation_body_spec (df : DataFrame) (ref_field edge_rel : string)
      (b : Builder) (e : edges) :
    ∃ b' e',
      relation_body df ref_field edge_rel (b, e)
      = (relation_outcome df ref_field, (b', e'))
      ∧ effect (relation_requests df ref_field) b b'
      ∧ (∀ x, relation_outcome df ref_field = Raise x → b' = b ∧ e' = e).
Proof.
    unfold relation_body, relation_requests, relation_outcome.
    destruct (edge_candidates df (ref_field +:+ "_ref")) as [cs|x] eqn:E.
    2:{ exists b, e. split; [done|]. split; [apply effect_nil|done]. }
    rewrite bind_lift_ok. destruct cs as [|c cs].
    { exists b, e. split; [done|]. split; [apply effect_nil|done]. }
    destruct (parse_candidates _ (c :: cs)) as [cands|x] eqn:P.
    2:{ exists b, e. split; [done|]. split; [apply effect_nil|done]. }
    rewrite bind_lift_ok.
    destruct (runs_register_pass cands b) as ([si ti] & b1 & E1 & F1).
    unfold bind, on_fst. rewrite E1. destruct si as [|s si].
    { exists b1, e. split; [done|]. split; [done|]. by intros x [=]. }
    destruct (runs_edge_pass edge_rel cands b1 e) as ([] & b2 & e2 & E2 & F2).
    rewrite E2. exists b2, e2. split; [done|].
    split; [by eapply effect_twice|]. by intros x [=].
Qed.

Lemma runs_try_relation df ref_field edge_rel :
    runs_locally (try_except (relation_body df ref_field edge_rel) (λ _, ret tt))
                 (relation_requests df ref_field).
Proof.
    intros b e. unfold try_except.
    destruct (relation_body_spec df ref_field edge_rel b e) as (b' & e' & -> & F & Hr).
    destruct (relation_outcome df ref_field) as [[]|x]; [by eexists _, _, _|].
    destruct (Hr x eq_refl) as [-> ->]. by exists tt, b, e.
Qed.

Lemma runs_resolve_edges df :
    runs_locally (resolve_edges df)
                 (flat_map (λ c, relation_requests df c.1) relation_configs).
Proof.
    unfold resolve_edges. apply runs_locally_for_each.
    intros [] [ref_field edge_rel]. apply runs_try_relation.
Qed.

(** *** Which edge lists a relation touches *)














(** *** One window *)

Lemma runs_new_data torch : runs (new_data torch) [].
Proof.
    unfold new_data. destruct torch; [apply runs_ret|].
    intros b. exists (AsDict ∅), (set_warned b). by split.
Qed.

Lemma construct_spec torch df window_start b :
    well_formed df →
    ∃ snap b',
      _construct_hetero_data torch df window_start b = (OK snap, b')
      ∧ effect (frame_requests df) b b'
      ∧ snapshot_timestamp snap = Some window_start
      ∧ snapshot_num_nodes snap
        = (if torch then ∅ else size <$> node_mapping b')
      ∧ ∃ b1, (resolve_edges df (b1, ∅)).2.2 = snapshot_edges snap.
Proof.
    intros (Hrt & Hid & Hts). unfold _construct_hetero_data, frame_requests.
    destruct (runs_new_data torch b) as (d0 & b0 & E0 & F0).
    unfold bind at 1. rewrite E0.
    unfold partition_by_resourceType, require. rewrite Hrt, bind_lift_ok.
    destruct (runs_index_nodes df (group_rows col_resourceType (rows df)) d0 Hid b0)
      as (d1 & b1 & E1 & F1).
    unfold bind at 1. rewrite E1.
    destruct (runs_with_local (resolve_edges df) ∅ _ (runs_resolve_edges df) b1)
      as ([u e] & b2 & E2 & F2).
    unfold bind at 1. rewrite E2.
    unfold min_timestamp, require. rewrite Hts, bind_lift_ok.
    assert (effect (node_requests df
                    ++ flat_map (λ c, relation_requests df c.1) relation_configs) b b2) as F.
    { eapply effect_app; [|done]. change (node_requests df) with ([] ++ node_requests df).
      by eapply effect_app. }
    unfold assemble.
    assert ((resolve_edges df (b1, ∅)).2.2 = e) as He.
    { unfold with_local in E2.
      destruct (resolve_edges df (b1, ∅)) as [[a|x] [b3 e3]]; by simplify_eq. }
    destruct torch.
    - eexists _, b2. split; [done|]. split; [done|].
      split; [reflexivity|]. split; [reflexivity|]. by exists b1.
    - eexists _, b2. split; [done|]. split; [done|]. split; [|split].
      + unfold snapshot_timestamp, gets, bind, ret. by rewrite lookup_insert_eq.
      + unfold snapshot_num_nodes, gets, bind, ret.
        rewrite lookup_insert_ne by done. by rewrite lookup_insert_eq.
      + exists b1. rewrite He. unfold snapshot_edges, gets, bind, ret.
        do 2 (rewrite lookup_insert_ne by done). by rewrite lookup_insert_eq.
Qed.

(** *** All windows *)

Lemma sub_frames_well_formed {K} (df : DataFrame) (gs : list (K * list Row)) :
    well_formed df → Forall (λ w, well_formed w.2) (sub_frames df gs).
Proof.
    intros H. unfold sub_frames. apply Forall_fmap, Forall_forall.
    by intros [k g] _.
Qed.

Lemma windowed_frame_well_formed every dds :
    well_formed (windowed_frame every dds).
Proof. by repeat split. Qed.

Lemma group_by_windowed_frame every dds :
    group_by_snapshot_idx (windowed_frame every dds) = OK (windows_of every dds).
Proof. done. Qed.

Lemma windows_of_well_formed every dds :
    Forall (λ w, well_formed w.2) (windows_of every dds).
Proof. apply sub_frames_well_formed, windowed_frame_well_formed. Qed.


Lemma build_raise fromisoformat torch rs b e :
    Normalizer.collect fromisoformat rs [] = Raise e →
    build_snapshots fromisoformat torch rs b = (mk_drained [] (Some e), b).
Proof. intros H. unfold build_snapshots. rewrite H. by destruct rs. Qed.



End BuilderFacts.

(** ** The window partitioner *)

Module PartitionFacts.
Import Polars.

(** *** Truncation *)





(** *** Sorting *)






(** *** Grouping *)

Section Grouping.
Context {K : Type} `{EqDecision K} (f : Row → K).






End Grouping.



(** *** The windows of a build *)








End PartitionFacts.

(** ** The builder's claims *)

Module BuilderSpec.
Import Polars Reference Normalizer Assembler Registry RegistryFacts Requests.
Import TemporalBuilder SnapshotView BuilderFacts PartitionFacts Example.

(** The plain mapping reports, for every type of the registry, the number
    of identities registered when the snapshot is assembled. *)
Lemma plain_mapping_counts (df : DataFrame) (window_start : Z) (b b' : Builder) snap :
    well_formed df →
    _construct_hetero_data false df window_start b = (OK snap, b') →
    ∀ t, snapshot_num_nodes snap !! t = size <$> node_mapping b' !! t.
Proof.
    intros Hwf E t.
    destruct (construct_spec false df window_start b Hwf) as (s & b1 & E1 & _ & _ & N & _).
    rewrite E in E1. injection E1 as <- <-. by rewrite N, lookup_fmap.
Qed.


(** The documented example gives two snapshots; the condition of the
    first day and the medication request of the second both point at
    index 0 of Patient. *)
Example documented_example :
    ∃ s0 s1 b',
      build_snapshots Iso8601.fromisoformat false patient_history (new_builder one_day)
      = (mk_drained [s0; s1] None, b')
      ∧ snapshot_edges s0 !! (Some "Condition", "refers_to", Some "Patient")
        = Some ([0%nat], [0%nat])
      ∧ snapshot_edges s1 !! (Some "MedicationRequest", "refers_to", Some "Patient")
        = Some ([0%nat], [0%nat])
      ∧ index_of (node_mapping b') (Some "Patient") (Some "p1") = Some 0%nat.
Proof. eexists _, _, _. vm_compute. by repeat split. Qed.


(** C2 fails: only [ValueError] is caught around the parse.  A timestamp
    that is not a string raises [TypeError] from [len]; a [period] or a
    [subject] that is not a mapping raises [AttributeError] from [get]. *)
Theorem C2_malformed_input_raises (fromisoformat : string → option Datetime.datetime)
      (torch : bool) (b : Builder) :
    build_snapshots fromisoformat torch
      [[("resourceType", VStr "Observation"); ("id", VStr "o1");
        ("effectiveDateTime", VInt 20200101)]] b
    = (mk_drained [] (Some TypeError), b)
    ∧ build_snapshots fromisoformat torch
        [[("resourceType", VStr "Encounter"); ("id", VStr "e1");
          ("period", VStr "2020-01-01")]] b
      = (mk_drained [] (Some AttributeError), b)
    ∧ build_snapshots Iso8601.fromisoformat torch
        [[("resourceType", VStr "Condition"); ("id", VStr "c1");
          ("recordedDate", VStr "2020-01-01"); ("subject", VStr "Patient/p1")]] b
      = (mk_drained [] (Some AttributeError), b).
Proof. repeat split; by apply build_raise. Qed.


Lemma collect_unresolvable fromisoformat rs acc :
    Forall (unresolvable fromisoformat) rs → collect fromisoformat rs acc = OK acc.
Proof.
    induction 1 as [|r rs (v & Hv & Hdrop) _ IH]; [done|].
    simpl. unfold normalize. rewrite Hv.
    destruct (PyDict.truthy v); simpl; [|done].
    destruct Hdrop as [|Hp]; [done|]. by rewrite Hp.
Qed.

Lemma collect_without_event fromisoformat rs acc :
    Forall (λ r, ∀ d, normalize fromisoformat r ≠ OK (Some d)) rs →
    collect fromisoformat rs acc = OK acc ∨ ∃ e, collect fromisoformat rs acc = Raise e.
Proof.
    induction 1 as [|r rs Hr _ IH]; [by left|].
    simpl. destruct (normalize fromisoformat r) as [[d|]|e]; [|done|eauto].
    by destruct (Hr d).
Qed.

(** C10: an empty input, and an input in which no record has a
    resolvable timestamp, yield no snapshot and leave the builder,
    registry included, as it was; the builder is also left as it was, with
    nothing yielded, whenever no record gives an event. *)
Theorem C10_nothing_to_build (fromisoformat : string → option Datetime.datetime)
      (torch : bool) (b : Builder) :
    build_snapshots fromisoformat torch [] b = (mk_drained [] None, b)
    ∧ (∀ rs, Forall (unresolvable fromisoformat) rs →
             build_snapshots fromisoformat torch rs b = (mk_drained [] None, b))
    ∧ (∀ rs, Forall (λ r, ∀ d, normalize fromisoformat r ≠ OK (Some d)) rs →
             yielded (build_snapshots fromisoformat torch rs b).1 = []
             ∧ (build_snapshots fromisoformat torch rs b).2 = b).
Proof.
    split; [done|]. split.
    - intros rs H. unfold build_snapshots.
      rewrite (collect_unresolvable _ _ _ H). by destruct rs.
    - intros rs H. unfold build_snapshots.
      destruct (collect_without_event fromisoformat rs [] H) as [->|[e ->]];
        by destruct rs.
Qed.

Lemma C10_nothing_to_build_witness :
    build_snapshots Iso8601.fromisoformat false
      [[("resourceType", VStr "Patient"); ("id", VStr "p1")];
       [("resourceType", VStr "Patient"); ("id", VStr "p2"); ("birthDate", VStr "unknown")]]
      (new_builder one_day)
    = (mk_drained [] None, new_builder one_day).
Proof.
    apply (proj1 (proj2 (C10_nothing_to_build Iso8601.fromisoformat false
                                  (new_builder one_day)))).
    repeat constructor.
    - exists VNone. split; [reflexivity|]. left. reflexivity.
    - exists (VStr "unknown"). split; [reflexivity|]. right. reflexivity.
Defined.








End BuilderSpec.

(** ** The edge lists of a window *)

Module EdgeFacts.
Import Polars Reference Assembler Registry RegistryFacts Requests.
Import TemporalBuilder SnapshotView BuilderFacts EdgeView.

Lemma set_node_mapping_id (b : Builder) : set_node_mapping (node_mapping b) b = b.
Proof. by destruct b. Qed.

Lemma get_node_index_registered (b : Builder) (t i : key) (n : nat) :
    index_of (node_mapping b) t i = Some n → _get_node_index t i b = (OK n, b).
Proof.
    intros H. unfold _get_node_index.
    by rewrite (get_or_create_existing _ _ _ _ H), set_node_mapping_id.
Qed.

Lemma idx_registered (nm : registry) (p : key * key) :
    is_Some (index_of nm p.1 p.2) → index_of nm p.1 p.2 = Some (idx nm p).
Proof. intros [n H]. unfold idx. by rewrite H. Qed.

Lemma edge_pass_registered (edge_rel : string)
      (cands : list (key * key * string * string)) (b : Builder) (e : edges) :
    Forall (λ p, is_Some (index_of (node_mapping b) p.1 p.2)) (cand_requests cands) →
    edge_pass edge_rel cands (b, e)
    = (OK tt, (b, foldl (add_edge (node_mapping b) edge_rel) e cands)).
Proof.
    unfold edge_pass. revert e.
    induction cands as [|[[[st i] tt] j] cands IH]; intros e Hreg; [done|].
    unfold cand_requests in Hreg. simpl in Hreg.
    apply Forall_cons in Hreg as [Hs Hreg]. apply Forall_cons in Hreg as [Ht Hreg].
    simpl for_each. unfold bind at 1. unfold bind at 1.
    unfold on_snd at 1, modify at 1. cbn [fst snd].
    unfold bind at 1, on_fst at 1.
    rewrite (get_node_index_registered b st i _ (idx_registered _ (st, i) Hs)).
    unfold bind at 1, on_snd at 1, modify at 1.
    unfold bind at 1, on_fst at 1.
    rewrite (get_node_index_registered b (Some tt) (Some j) _
               (idx_registered _ (Some tt, Some j) Ht)).
    unfold on_snd at 1, modify at 1.
    by rewrite (IH _ Hreg).
Qed.

(** *** Lookups after the second pass *)

Lemma add_edge_lookup_key (nm : registry) (edge_rel : string) (e : edges)
      (c : key * key * string * string) :
    add_edge nm edge_rel e c !! (c.1.1.1, edge_rel, Some c.1.2)
    = Some ((default ([], []) (e !! (c.1.1.1, edge_rel, Some c.1.2))).1
              ++ [idx nm (source_of c)],
            (default ([], []) (e !! (c.1.1.1, edge_rel, Some c.1.2))).2
              ++ [idx nm (target_of c)]).
Proof.
    unfold add_edge, append_tgt, append_src, ensure_key. cbv zeta.
    rewrite !lookup_alter_eq.
    destruct (e !! (c.1.1.1, edge_rel, Some c.1.2)) as [v|] eqn:E.
    - rewrite decide_False by done. by rewrite E.
    - rewrite decide_True by done. by rewrite lookup_insert_eq.
Qed.

Lemma add_edge_lookup_other (nm : registry) (edge_rel : string) (e : edges)
      (c : key * key * string * string) (k : edge_key) :
    k ≠ (c.1.1.1, edge_rel, Some c.1.2) → add_edge nm edge_rel e c !! k = e !! k.
Proof.
    intros Hk. unfold add_edge, append_tgt, append_src, ensure_key. cbv zeta.
    rewrite !lookup_alter_ne by done.
    case_decide; [by rewrite lookup_insert_ne|done].
Qed.

Lemma add_edges_other_relation (nm : registry) (rel edge_rel : string)
      (cands : list (key * key * string * string)) (e : edges) (s t : key) :
    rel ≠ edge_rel →
    foldl (add_edge nm edge_rel) e cands !! (s, rel, t) = e !! (s, rel, t).
Proof.
    intros Hne. revert e. induction cands as [|c cands IH]; intros e; [done|].
    simpl. rewrite IH. apply add_edge_lookup_other. by intros [=].
Qed.

(** The list under a key is what was there, followed by the indices of
    the matching candidates in their order. *)
Lemma add_edges_lookup (nm : registry) (edge_rel : string)
      (cands : list (key * key * string * string)) (e : edges) (s t : key) :
    foldl (add_edge nm edge_rel) e cands !! (s, edge_rel, t)
    = match matching s t cands with
      | [] => e !! (s, edge_rel, t)
      | m => Some ((default ([], []) (e !! (s, edge_rel, t))).1
                     ++ (idx nm ∘ source_of <$> m),
                   (default ([], []) (e !! (s, edge_rel, t))).2
                     ++ (idx nm ∘ target_of <$> m))
      end.
Proof.
    revert e. induction cands as [|c cands IH]; intros e; [done|].
    simpl foldl. rewrite IH. unfold matching. rewrite filter_cons.
    destruct (decide (c.1.1.1 = s ∧ Some c.1.2 = t)) as [[<- <-]|Hno].
    - rewrite add_edge_lookup_key. simpl.
      destruct (filter _ cands) as [|c' m']; [done|].
      by rewrite <- !app_assoc.
    - rewrite add_edge_lookup_other; [done|]. intros [=]. by apply Hno.
Qed.

Lemma add_edges_lookup_fresh (nm : registry) (edge_rel : string)
      (cands : list (key * key * string * string)) (e : edges) (s t : key) :
    e !! (s, edge_rel, t) = None →
    foldl (add_edge nm edge_rel) e cands !! (s, edge_rel, t)
    = match matching s t cands with
      | [] => None
      | m => Some (idx nm ∘ source_of <$> m, idx nm ∘ target_of <$> m)
      end.
Proof. intros H. rewrite add_edges_lookup, H. by destruct (matching s t cands). Qed.

(** *** The first pass *)

Lemma register_pass_lengths (cands : list (key * key * string * string)) (b : Builder) :
    ∃ si ti b',
      register_pass cands b = (OK (si, ti), b')
      ∧ effect (cand_requests cands) b b'
      ∧ length si = length cands.
Proof.
    unfold register_pass.
    enough (∀ acc : list nat * list nat, ∃ si ti b',
              for_each (λ '(src_indices, tgt_indices) '(src_t, src_i, tgt_t, tgt_i),
                (do s_idx <- _get_node_index src_t src_i;
                 do t_idx <- _get_node_index (Some tgt_t) (Some tgt_i);
                 ret (src_indices ++ [s_idx], tgt_indices ++ [t_idx]))%py) cands acc b
              = (OK (si, ti), b')
              ∧ effect (cand_requests cands) b b'
              ∧ length si = (length acc.1 + length cands)%nat) as H
      by apply (H ([], [])).
    revert b. induction cands as [|[[[st i] tt] j] cands IH]; intros b [a1 a2].
    - exists a1, a2, b. split; [done|]. split; [apply effect_nil|simpl; lia].
    - destruct (runs_get_node_index st i b) as (n1 & b1 & E1 & F1).
      destruct (runs_get_node_index (Some tt) (Some j) b1) as (n2 & b2 & E2 & F2).
      destruct (IH b2 (a1 ++ [n1], a2 ++ [n2])) as (si & ti & b3 & E3 & F3 & L3).
      exists si, ti, b3. simpl for_each. unfold bind at 1. unfold bind at 1.
      rewrite E1. unfold bind at 1. rewrite E2. unfold ret at 1.
      split; [exact E3|]. split.
      + change (cand_requests ((st, i, tt, j) :: cands))
          with ([(st, i)] ++ ([(Some tt, Some j)] ++ cand_requests cands)).
        eapply effect_app; [done|]. by eapply effect_app.
      + rewrite L3. simpl. rewrite length_app. simpl. lia.
Qed.

Lemma parse_candidates_length inferred cs cands :
    parse_candidates inferred cs = OK cands → length cands = length cs.
Proof.
    revert cands. induction cs as [|c cs IH]; intros cands; simpl.
    - by intros [= <-].
    - destruct (parse_candidate inferred c); [|done].
      destruct (parse_candidates inferred cs); [|done].
      intros [= <-]. simpl. by rewrite (IH _ eq_refl).
Qed.

(** *** One relation *)

Lemma relation_body_edges (df : DataFrame) (ref_field edge_rel : string)
      (b : Builder) (e : edges) :
    ∃ b',
      relation_body df ref_field edge_rel (b, e)
      = (relation_outcome df ref_field,
         (b', foldl (add_edge (node_mapping b') edge_rel) e
                    (window_candidates df ref_field)))
      ∧ effect (relation_requests df ref_field) b b'
      ∧ Forall (λ p, is_Some (index_of (node_mapping b') p.1 p.2))
               (cand_requests (window_candidates df ref_field)).
Proof.
    unfold relation_body, relation_requests, relation_outcome, window_candidates.
    destruct (edge_candidates df (ref_field +:+ "_ref")) as [cs|x] eqn:E.
    2:{ exists b. split; [done|]. split; [apply effect_nil|constructor]. }
    rewrite bind_lift_ok. destruct cs as [|c cs].
    { exists b. split; [done|]. split; [apply effect_nil|constructor]. }
    destruct (parse_candidates _ (c :: cs)) as [cands|x] eqn:P.
    2:{ exists b. split; [done|]. split; [apply effect_nil|constructor]. }
    rewrite bind_lift_ok.
    destruct (register_pass_lengths cands b) as (si & ti & b1 & E1 & F1 & L1).
    assert (Forall (λ p, is_Some (index_of (node_mapping b1) p.1 p.2))
                   (cand_requests cands)) as Hreg.
    { destruct F1 as [-> _]. apply register_all_registers. }
    unfold bind, on_fst. rewrite E1.
    apply parse_candidates_length in P. simpl in P.
    destruct si as [|s si]; [simpl in L1; lia|].
    rewrite (edge_pass_registered edge_rel cands b1 e Hreg).
    exists b1. split; [done|]. by split.
Qed.

Lemma try_relation_edges (df : DataFrame) (ref_field edge_rel : string)
      (b : Builder) (e : edges) :
    ∃ b',
      try_except (relation_body df ref_field edge_rel) (λ _, ret tt) (b, e)
      = (OK tt, (b', foldl (add_edge (node_mapping b') edge_rel) e
                           (window_candidates df ref_field)))
      ∧ effect (relation_requests df ref_field) b b'
      ∧ Forall (λ p, is_Some (index_of (node_mapping b') p.1 p.2))
               (cand_requests (window_candidates df ref_field)).
Proof.
    destruct (relation_body_edges df ref_field edge_rel b e) as (b' & E & F & R).
    exists b'. unfold try_except. rewrite E.
    by destruct (relation_outcome df ref_field) as [[]|x].
Qed.

(** *** The relations together *)

Lemma edge_list_of_extends (nm nm' : registry)
      (m : list (key * key * string * string)) (o : option (list nat * list nat)) :
    extends nm nm' → edge_list_of nm m o → edge_list_of nm' m o.
Proof.
    intros Hext. unfold edge_list_of. destruct m as [|c m]; [done|].
    intros (srcs & tgts & -> & Hs & Ht). exists srcs, tgts. split; [done|].
    split; (eapply Forall2_impl; [done|]); intros c' n; apply Hext.
Qed.

Lemma resolved_extends (nm nm' : registry) (df : DataFrame) (e : edges) :
    extends nm nm' → resolved nm df e → resolved nm' df e.
Proof.
    intros Hext [H1 H2]. split; [|done].
    intros f rel s t Hin. eapply edge_list_of_extends; [done|]. by apply H1.
Qed.

Lemma matching_sublist (s t : key) (cands : list (key * key * string * string)) :
    matching s t cands ⊆ cands.
Proof. intros c Hc. unfold matching in Hc. by apply list_elem_of_filter in Hc as [_ ?]. Qed.

Lemma edge_list_of_indices (nm : registry) (s t : key)
      (cands : list (key * key * string * string)) :
    Forall (λ p, is_Some (index_of nm p.1 p.2)) (cand_requests cands) →
    edge_list_of nm (matching s t cands)
      (match matching s t cands with
       | [] => None
       | m => Some (idx nm ∘ source_of <$> m, idx nm ∘ target_of <$> m)
       end).
Proof.
    intros Hreg. pose proof (matching_sublist s t cands) as Hsub.
    assert (∀ c, c ∈ matching s t cands →
              index_of nm (source_of c).1 (source_of c).2 = Some (idx nm (source_of c))
              ∧ index_of nm (target_of c).1 (target_of c).2 = Some (idx nm (target_of c)))
      as Hc.
    { intros c Hin. rewrite Forall_forall in Hreg.
      split; apply idx_registered, Hreg; unfold cand_requests;
        apply list_elem_of_In, in_flat_map; exists c;
        (split; [by apply list_elem_of_In, Hsub|]); simpl; auto. }
    unfold edge_list_of. destruct (matching s t cands) as [|c m]; [done|].
    eexists _, _. split; [done|].
    split; apply Forall2_fmap_r, Forall_Forall2_diag, Forall_forall;
      intros c' Hin; by apply Hc.
Qed.

Lemma resolve_edges_resolved (df : DataFrame) (b : Builder) :
    ∃ b' e',
      resolve_edges df (b, ∅) = (OK tt, (b', e'))
      ∧ effect (flat_map (λ c, relation_requests df c.1) relation_configs) b b'
      ∧ resolved (node_mapping b') df e'.
Proof.
    unfold resolve_edges, relation_configs. simpl for_each.
    destruct (try_relation_edges df "subject" "refers_to" b ∅) as (b1 & E1 & F1 & R1).
    unfold bind at 1. rewrite E1.
    match goal with |- context [foldl ?f ∅ ?l] => set (e1 := foldl f ∅ l) in * end.
    destruct (try_relation_edges df "encounter" "occurs_in" b1 e1) as (b2 & E2 & F2 & R2).
    unfold bind at 1. rewrite E2. unfold ret.
    eexists _, _. split; [done|]. split.
    { simpl. rewrite app_nil_r. by eapply effect_app. }
    assert (extends (node_mapping b1) (node_mapping b2)) as Hext.
    { destruct F2 as [-> _]. apply register_all_extends. }
    split.
    - intros f rel s t Hin.
      apply elem_of_cons in Hin as [Hin|Hin];
        [|apply elem_of_cons in Hin as [Hin|Hin]; [|by apply elem_of_nil in Hin]];
        injection Hin as -> ->.
      + rewrite add_edges_other_relation by done. unfold e1.
        rewrite add_edges_lookup_fresh by apply lookup_empty.
        eapply edge_list_of_extends; [done|].
        by apply edge_list_of_indices.
      + rewrite add_edges_lookup_fresh.
        * by apply edge_list_of_indices.
        * unfold e1. rewrite add_edges_other_relation by done. apply lookup_empty.
    - intros s rel t Hrel.
      assert (rel ≠ "refers_to" ∧ rel ≠ "occurs_in") as [H1 H2].
      { split; intros ->; apply Hrel; simpl.
        - by left.
        - right. by left. }
      rewrite add_edges_other_relation by done. unfold e1.
      rewrite add_edges_other_relation by done. apply lookup_empty.
Qed.

(** *** The snapshot of a window *)

Lemma construct_edges (torch : bool) (df : DataFrame) (window_start : Z)
      (b b' : Builder) (snap : Snapshot) :
    well_formed df →
    _construct_hetero_data torch df window_start b = (OK snap, b') →
    resolved (node_mapping b') df (snapshot_edges snap)
    ∧ effect (frame_requests df) b b'.
Proof.
    intros (Hrt & Hid & Hts). unfold _construct_hetero_data.
    destruct (runs_new_data torch b) as (d0 & b0 & E0 & F0).
    unfold bind at 1. rewrite E0.
    unfold partition_by_resourceType, require. rewrite Hrt, bind_lift_ok.
    destruct (runs_index_nodes df (group_rows col_resourceType (rows df)) d0 Hid b0)
      as (d1 & b1 & E1 & F1).
    unfold bind at 1. rewrite E1.
    destruct (resolve_edges_resolved df b1) as (b2 & e2 & E2 & F2 & R2).
    unfold bind at 1, with_local at 1. rewrite E2.
    unfold min_timestamp, require. rewrite Hts, bind_lift_ok.
    assert (effect (frame_requests df) b b2) as F.
    { unfold frame_requests. eapply effect_app; [|done].
      change (node_requests df) with ([] ++ node_requests df). by eapply effect_app. }
    unfold assemble. destruct torch.
    - unfold ret. intros [= <- <-]. by split.
    - unfold gets, bind, ret. intros [= <- <-]. split; [|done].
      unfold snapshot_edges.
      do 2 (rewrite lookup_insert_ne by done). by rewrite lookup_insert_eq.
Qed.

End EdgeFacts.

(** ** Runs over several windows *)

Module RunFacts.
Import Polars Reference Normalizer Assembler Registry RegistryFacts Requests.
Import TemporalBuilder SnapshotView BuilderFacts PartitionFacts EdgeView EdgeFacts Run.

Lemma yield_chain (torch : bool) (windows : list (Z * DataFrame)) (b : Builder) :
    Forall (λ w, well_formed w.2) windows →
    ∃ snaps b',
      yield_windows torch windows b = (mk_drained snaps None, b')
      ∧ chain torch b windows snaps b'.
Proof.
    intros Hwf. revert b. induction Hwf as [|[ws df] windows Hdf _ IH]; intros b.
    - by exists [], b.
    - destruct (construct_spec torch df ws b Hdf) as (snap & b1 & E1 & _).
      destruct (IH b1) as (snaps & b2 & E2 & C2).
      exists (snap :: snaps), b2. simpl. rewrite E1, E2. split; [done|]. eauto.
Qed.

Lemma build_chain fromisoformat (torch : bool) (rs : list resource) (b : Builder)
      (dds : list DataDict) :
    collect fromisoformat rs [] = OK dds →
    ∃ snaps b',
      build_snapshots fromisoformat torch rs b = (mk_drained snaps None, b')
      ∧ chain torch b (windows_of (time_window b) dds) snaps b'.
Proof.
    intros H.
    destruct (yield_chain torch (windows_of (time_window b) dds) b
                (windows_of_well_formed _ _)) as (snaps & b' & E & C).
    unfold build_snapshots. rewrite H.
    destruct rs as [|r rs]; [simpl in H; injection H as <-; by exists [], b|].
    destruct dds as [|d dds]; [by exists [], b|].
    rewrite group_by_windowed_frame. eauto.
Qed.

Lemma chain_effect (torch : bool) (windows : list (Z * DataFrame)) (b b' : Builder)
      (snaps : list Snapshot) :
    Forall (λ w, well_formed w.2) windows →
    chain torch b windows snaps b' →
    effect (flat_map (λ w, frame_requests w.2) windows) b b'.
Proof.
    intros Hwf. revert b snaps.
    induction Hwf as [|w windows Hw _ IH]; intros b [|snap snaps]; simpl; try done.
    - intros ->. apply effect_nil.
    - intros (b1 & E & C). eapply effect_app; [|by eapply IH].
      by apply (construct_edges torch w.2 w.1 b b1 snap).
Qed.

Lemma effect_extends (reqs : list (key * key)) (b b' : Builder) :
    effect reqs b b' → extends (node_mapping b) (node_mapping b').
Proof. intros [-> _]. apply register_all_extends. Qed.

Lemma node_count_mono (reqs : list (key * key)) (nm : registry) (t : key) :
    (node_count nm t ≤ node_count (register_all reqs nm) t)%nat.
Proof.
    rewrite !node_count_size, <- !(size_dom (D := gset key)), register_all_dom.
    apply subseteq_size. set_solver.
Qed.

Lemma effect_counts (reqs : list (key * key)) (b b' : Builder) (t : key) :
    effect reqs b b' →
    (node_count (node_mapping b) t ≤ node_count (node_mapping b') t)%nat.
Proof. intros [-> _]. apply node_count_mono. Qed.

(** Every snapshot of a run holds the edges of its window, with the
    indices of the registry the run ends with. *)
Lemma chain_resolved (torch : bool) (windows : list (Z * DataFrame)) (b b' : Builder)
      (snaps : list Snapshot) :
    Forall (λ w, well_formed w.2) windows →
    chain torch b windows snaps b' →
    Forall2 (λ snap w, snapshot_timestamp snap = Some w.1
                       ∧ resolved (node_mapping b') w.2 (snapshot_edges snap))
            snaps windows.
Proof.
    intros Hwf. revert b snaps.
    induction Hwf as [|w windows Hw Hwf IH]; intros b [|snap snaps]; simpl; try done.
    intros (b1 & E & C). constructor; [|by eapply IH].
    destruct (construct_spec torch w.2 w.1 b Hw) as (s & b2 & E2 & _ & T & _).
    rewrite E in E2. injection E2 as <- <-. split; [done|].
    eapply resolved_extends; [|by apply (construct_edges torch w.2 w.1 b b1 snap)].
    eapply effect_extends. by eapply chain_effect.
Qed.

Lemma count_in_plain (df : DataFrame) (window_start : Z) (b b' : Builder)
      (snap : Snapshot) (t : key) :
    well_formed df →
    _construct_hetero_data false df window_start b = (OK snap, b') →
    count_in snap t = node_count (node_mapping b') t.
Proof.
    intros Hwf E.
    destruct (construct_spec false df window_start b Hwf) as (s & b1 & E1 & _ & _ & N & _).
    rewrite E in E1. injection E1 as <- <-.
    unfold count_in, node_count. rewrite N, lookup_fmap.
    by destruct (node_mapping b' !! t).
Qed.

(** In the plain mapping the counts of a run lie between the registry
    before and after it, and never go down. *)
Lemma chain_counts (windows : list (Z * DataFrame)) (b b' : Builder)
      (snaps : list Snapshot) :
    Forall (λ w, well_formed w.2) windows →
    chain false b windows snaps b' →
    Forall (λ snap, ∀ t, (node_count (node_mapping b) t ≤ count_in snap t
                          ∧ count_in snap t ≤ node_count (node_mapping b') t)%nat) snaps
    ∧ StronglySorted counts_le snaps.
Proof.
    intros Hwf. revert b snaps.
    induction Hwf as [|w windows Hw Hwf IH]; intros b [|snap snaps]; simpl; try done.
    { intros _. split; constructor. }
    intros (b1 & E & C).
    destruct (IH b1 snaps C) as [Hb Hs].
    pose proof (chain_effect false windows b1 b' snaps Hwf C) as F.
    destruct (construct_edges false w.2 w.1 b b1 snap Hw E) as [_ F1].
    split.
    - constructor.
      + intros t. rewrite (count_in_plain w.2 w.1 b b1 snap t Hw E).
        split; by eapply effect_counts.
      + eapply Forall_impl; [exact Hb|]. intros s Hs' t.
        destruct (Hs' t) as [H1 H2]. split; [|done].
        etrans; [|exact H1]. by eapply effect_counts.
    - constructor; [done|].
      eapply Forall_impl; [exact Hb|]. intros s Hs' t.
      rewrite (count_in_plain w.2 w.1 b b1 snap t Hw E). apply Hs'.
Qed.

End RunFacts.
(** ** What a build registers *)

Module RegisteredFacts.
Import Events Polars Reference Normalizer Assembler Registry RegistryFacts Requests.
Import TemporalBuilder SnapshotView BuilderFacts PartitionFacts.
Import EdgeView EdgeFacts Run RunFacts Example.

Lemma parse_candidate_resolve (inferred : string) (c : key * key * string) :
    parse_candidate inferred c
    = match resolve inferred c.2 with
      | OK (t, i) => OK (c.1.1, c.1.2, t, i)
      | Raise e => Raise e
      end.
Proof.
    destruct c as [[st si] ref]. unfold parse_candidate, resolve. simpl.
    destruct (tgt_type_hint ref); [|done]. by destruct (tgt_id ref).
Qed.







End RegisteredFacts.

(** ** Window starts and the order of the input *)

Module OrderFacts.
Import Events Polars Reference Normalizer Assembler Registry RegistryFacts Requests.
Import TemporalBuilder SnapshotView BuilderFacts PartitionFacts.
Import EdgeView EdgeFacts Run RunFacts Example.





End OrderFacts.

(** ** The reporter *)

Module SummaryFacts.
Import Events Polars Reference Normalizer Assembler Registry RegistryFacts Requests.
Import TemporalBuilder SnapshotView BuilderFacts PartitionFacts.
Import EdgeView EdgeFacts Run RunFacts Example.

Lemma summary_loop_spec (snapshots : list Snapshot) (i : nat) (r0 r : Report) :
    summary_loop i snapshots r0 = OK r →
    ∃ lines,
      report_lines r = report_lines r0 ++ lines
      ∧ report_count r = (report_count r0 + length snapshots)%nat
      ∧ report_total_nodes r = (report_total_nodes r0 + sum_list (line_nodes <$> lines))%nat
      ∧ report_total_edges r = (report_total_edges r0 + sum_list (line_edges <$> lines))%nat
      ∧ line_index <$> lines = seq i (length snapshots)
      ∧ Forall2 (λ line snap, counts_of snap = OK (line_nodes line, line_edges line))
                lines snapshots.
Proof.
    revert i r0. induction snapshots as [|snap snaps IH]; intros i r0.
    - intros [= <-]. exists []. rewrite app_nil_r. simpl.
      repeat split; try lia. constructor.
    - simpl. destruct (counts_of snap) as [[nn ne]|] eqn:Hc; [|done].
      intros H. destruct (IH _ _ H) as (lines & Hl & Hn & Htn & Hte & Hi & Hf).
      simpl in *. exists (mk_line i nn ne :: lines).
      rewrite Hl, <- app_assoc. split; [done|]. simpl.
      split; [lia|].
      split; [rewrite Htn; unfold fmap; simpl; lia|].
      split; [rewrite Hte; unfold fmap; simpl; lia|].
      split; [by rewrite <- Hi|]. by constructor.
Qed.

Lemma summary_loop_total (snapshots : list Snapshot) (i : nat) (r0 : Report) :
    Forall (λ snap, ∃ c, counts_of snap = OK c) snapshots →
    ∃ r, summary_loop i snapshots r0 = OK r.
Proof.
    intros H. revert i r0. induction H as [|snap snaps [[nn ne] Hc] _ IH]; intros i r0.
    - by eexists.
    - simpl. rewrite Hc. apply IH.
Qed.

Lemma construct_plain (df : DataFrame) (window_start : Z) (b b' : Builder)
      (snap : Snapshot) :
    well_formed df →
    _construct_hetero_data false df window_start b = (OK snap, b') →
    ∃ e, snap = AsDict (<["timestamp" := PTime window_start]>
                        (<["num_nodes" := PCounts (size <$> node_mapping b')]>
                        (<["edge_index_dict" := PEdges e]> ∅))).
Proof.
    intros (Hrt & Hid & Hts). unfold _construct_hetero_data.
    destruct (runs_new_data false b) as (d0 & b0 & E0 & F0).
    unfold bind at 1. rewrite E0.
    unfold partition_by_resourceType, require. rewrite Hrt, bind_lift_ok.
    destruct (runs_index_nodes df (group_rows col_resourceType (rows df)) d0 Hid b0)
      as (d1 & b1 & E1 & F1).
    unfold bind at 1. rewrite E1.
    destruct (runs_with_local (resolve_edges df) ∅ _ (runs_resolve_edges df) b1)
      as ([u e] & b2 & E2 & F2).
    unfold bind at 1. rewrite E2.
    unfold min_timestamp, require. rewrite Hts, bind_lift_ok.
    unfold assemble, gets, bind, ret. intros [= <- <-]. by exists e.
Qed.

Lemma counts_of_plain (ws : Z) (c : gmap key nat) (e : edges) :
    counts_of (AsDict (<["timestamp" := PTime ws]>
                       (<["num_nodes" := PCounts c]>
                       (<["edge_index_dict" := PEdges e]> ∅))))
    = OK (sum_values c, 0%nat).
Proof.
    unfold counts_of, nn_val_of, ne_val_of.
    rewrite lookup_insert_ne by done. rewrite lookup_insert_eq.
    rewrite !lookup_insert_ne by done. by rewrite lookup_empty.
Qed.

Lemma chain_plain (windows : list (Z * DataFrame)) (b b' : Builder)
      (snaps : list Snapshot) :
    Forall (λ w, well_formed w.2) windows →
    chain false b windows snaps b' →
    Forall (λ snap, counts_of snap = OK (sum_values (snapshot_num_nodes snap), 0%nat)) snaps.
Proof.
    intros Hwf. revert b snaps.
    induction Hwf as [|w windows Hw _ IH]; intros b [|snap snaps]; simpl; try done.
    intros (b1 & E & C). constructor; [|by eapply IH].
    destruct (construct_plain _ _ _ _ _ Hw E) as [e ->].
    rewrite counts_of_plain. unfold snapshot_num_nodes.
    rewrite lookup_insert_ne by done. by rewrite lookup_insert_eq.
Qed.

End SummaryFacts.

(** ** Counting snapshots *)

Module CountFacts.
Import Events Polars Reference Normalizer Assembler Registry RegistryFacts Requests.
Import TemporalBuilder SnapshotView BuilderFacts PartitionFacts.
Import EdgeView EdgeFacts Run RunFacts Example.




Lemma build_unfold fromisoformat (torch : bool) (rs : list resource) (b : Builder) :
    build_snapshots fromisoformat torch rs b
    = match collect fromisoformat rs [] with
      | Raise e => (mk_drained [] (Some e), b)
      | OK [] => (mk_drained [] None, b)
      | OK data_dicts =>
          match group_by_snapshot_idx (windowed_frame (time_window b) data_dicts) with
          | Raise e => (mk_drained [] (Some e), b)
          | OK windows => yield_windows torch windows b
          end
      end.
Proof. by destruct rs. Qed.

Lemma collect_skip fromisoformat (pre post : list resource) (r : resource)
      (acc : list DataDict) :
    normalize fromisoformat r = OK None →
    collect fromisoformat (pre ++ r :: post) acc = collect fromisoformat (pre ++ post) acc.
Proof.
    intros Hr. revert acc. induction pre as [|r0 pre IH]; intros acc; simpl.
    - by rewrite Hr.
    - by destruct (normalize fromisoformat r0) as [[d|]|].
Qed.

End CountFacts.

(** ** Segments of a reference *)

Module ParsingFacts.
Import PyStr StringFacts Reference Assembler.

Lemma split_segments_free (c : ascii) (s : string) :
    Forall (λ x, free_of c x = true) (split c s).
Proof.
    induction s as [|a s IH]; simpl; [by repeat constructor|].
    destruct (Ascii.eqb a c) eqn:E; [by constructor|].
    destruct (split c s) as [|h t]; [by repeat constructor; simpl; rewrite E|].
    apply Forall_cons in IH as [Hh Ht]. constructor; [|done]. simpl. by rewrite E, Hh.
Qed.

Lemma index_from_end_elem {A : Type} (l : list A) (k : nat) (x : A) :
    index_from_end l k = OK x → x ∈ l.
Proof.
    unfold index_from_end. destruct (rev l !! (k - 1)%nat) as [y|] eqn:E; [|done].
    intros [= <-]. apply list_elem_of_lookup_2, list_elem_of_In in E.
    apply list_elem_of_In, in_rev. exact E.
Qed.

Lemma segment_free (c : ascii) (s x : string) (k : nat) :
    index_from_end (split c s) k = OK x → free_of c x = true.
Proof.
    intros H. apply index_from_end_elem in H.
    pose proof (split_segments_free c s) as F. rewrite Forall_forall in F. by apply F.
Qed.

End ParsingFacts.


(** ** Further properties of the builder *)

Module BuilderExtras.
Import Events Polars Reference Normalizer Assembler Registry RegistryFacts Requests.
Import TemporalBuilder SnapshotView BuilderFacts PartitionFacts.
Import EdgeView EdgeFacts Run RunFacts RegisteredFacts OrderFacts SummaryFacts CountFacts Example.

(** X1: the snapshot of a window holds, for every configured relation and
    every pair of types, exactly the rows of the window whose reference is
    not null and resolves from the first type to the second: their registry
    indices in row order, duplicates kept, and no list when there is no
    such row; it holds no list under any other relation name. *)
Theorem X1_window_edges (torch : bool) (df : DataFrame) (window_start : Z)
      (b b' : Builder) (snap : Snapshot) :
    well_formed df →
    _construct_hetero_data torch df window_start b = (OK snap, b') →
    resolved (node_mapping b') df (snapshot_edges snap).
Proof. intros Hwf E. by apply (construct_edges torch df window_start b b' snap). Qed.

Lemma X1_window_edges_witness :
    ∃ snap b',
      _construct_hetero_data false frame_without_encounter 1735689600000000
        (new_builder one_day) = (OK snap, b')
      ∧ resolved (node_mapping b') frame_without_encounter (snapshot_edges snap).
Proof.
    destruct (construct_spec false frame_without_encounter 1735689600000000
                (new_builder one_day)) as (snap & b' & E & _); [by repeat split|].
    exists snap, b'. split; [exact E|].
    apply (X1_window_edges false frame_without_encounter 1735689600000000
             (new_builder one_day) b' snap); [by repeat split|exact E].
Defined.

Lemma edge_list_lengths (nm : registry) (m : list (key * key * string * string))
      (srcs tgts : list nat) :
    edge_list_of nm m (Some (srcs, tgts)) →
    m ≠ []
    ∧ Forall2 (λ c n, index_of nm (source_of c).1 (source_of c).2 = Some n) m srcs
    ∧ Forall2 (λ c n, index_of nm (target_of c).1 (target_of c).2 = Some n) m tgts.
Proof.
    unfold edge_list_of. destruct m as [|c m]; [done|].
    intros (s & t & [= <- <-] & Hs & Ht). done.
Qed.

(** X2: in the snapshot of a window built on a dense registry, the two
    index lists of an edge type have the same, non-zero length, every
    source index is below the number of nodes registered for the source
    type and every target index below that of the target type; the plain
    mapping reports these numbers as its node counts. *)
Theorem X2_edge_endpoints_valid (torch : bool) (df : DataFrame) (window_start : Z)
      (b b' : Builder) (snap : Snapshot) (s : key) (edge_rel : string) (t : key)
      (srcs tgts : list nat) :
    well_formed df →
    dense (node_mapping b) →
    _construct_hetero_data torch df window_start b = (OK snap, b') →
    snapshot_edges snap !! (s, edge_rel, t) = Some (srcs, tgts) →
    length srcs = length tgts
    ∧ srcs ≠ []
    ∧ Forall (λ n, (n < node_count (node_mapping b') s)%nat) srcs
    ∧ Forall (λ n, (n < node_count (node_mapping b') t)%nat) tgts
    ∧ (torch = false →
       count_in snap s = node_count (node_mapping b') s
       ∧ count_in snap t = node_count (node_mapping b') t).
Proof.
    intros Hwf Hd E Hk.
    destruct (construct_edges torch df window_start b b' snap Hwf E) as [[Hin Hout] F].
    assert (dense (node_mapping b')) as Hd'.
    { destruct F as [-> _]. by apply register_all_dense. }
    destruct (decide (edge_rel ∈ relation_configs.*2)) as [Hrel|Hrel].
    2:{ by rewrite (Hout s edge_rel t Hrel) in Hk. }
    apply list_elem_of_fmap in Hrel as ([f rel] & -> & Hf). simpl in Hk.
    specialize (Hin f rel s t Hf). rewrite Hk in Hin.
    apply edge_list_lengths in Hin as (Hne & Hs & Ht).
    assert (∀ c, c ∈ matching s t (window_candidates df f) →
              (source_of c).1 = s ∧ (target_of c).1 = t) as Htypes.
    { intros c Hc. unfold matching in Hc. by apply list_elem_of_filter in Hc as [[? ?] _]. }
    split; [by rewrite <- (Forall2_length _ _ _ Hs), <- (Forall2_length _ _ _ Ht)|].
    split.
    { intros ->. apply Forall2_nil_inv_r in Hs. done. }
    split; [|split].
    - apply Forall_forall. intros n Hn.
      apply list_elem_of_lookup in Hn as [i Hi].
      destruct (Forall2_lookup_r _ _ _ _ _ Hs Hi) as (c & Hc & Hreg).
      destruct (Htypes c) as [Hst _]; [by eapply list_elem_of_lookup_2|].
      rewrite Hst in Hreg. apply (dense_indices _ s n Hd'). eauto.
    - apply Forall_forall. intros n Hn.
      apply list_elem_of_lookup in Hn as [i Hi].
      destruct (Forall2_lookup_r _ _ _ _ _ Ht Hi) as (c & Hc & Hreg).
      destruct (Htypes c) as [_ Htt]; [by eapply list_elem_of_lookup_2|].
      rewrite Htt in Hreg. apply (dense_indices _ t n Hd'). eauto.
    - intros ->. split; by eapply count_in_plain.
Qed.

Lemma X2_edge_endpoints_valid_witness :
    ∃ snap,
      (_construct_hetero_data false frame_without_encounter 1735689600000000
         (new_builder one_day)).1 = OK snap
      ∧ snapshot_edges snap !! (Some "Condition", "refers_to", Some "Patient")
        = Some ([0%nat], [0%nat])
      ∧ Forall (λ n, (n < node_count
                            (node_mapping
                               (_construct_hetero_data false frame_without_encounter
                                  1735689600000000 (new_builder one_day)).2)
                            (Some "Patient"))%nat) [0%nat].
Proof.
    eexists. split; [vm_compute; reflexivity|]. split; [vm_compute; reflexivity|].
    eapply (X2_edge_endpoints_valid false frame_without_encounter 1735689600000000
              (new_builder one_day) _ _ (Some "Condition") "refers_to" (Some "Patient")
              [0%nat] [0%nat]).
    - by repeat split.
    - apply dense_empty.
    - vm_compute. reflexivity.
    - vm_compute. reflexivity.
Defined.

Lemma edge_list_of_unique (nm : registry) (m : list (key * key * string * string))
      (o1 o2 : option (list nat * list nat)) :
    edge_list_of nm m o1 → edge_list_of nm m o2 → o1 = o2.
Proof.
    unfold edge_list_of. destruct m as [|c m]; [congruence|].
    intros (s1 & t1 & -> & Hs1 & Ht1) (s2 & t2 & -> & Hs2 & Ht2).
    assert (∀ (P : key * key * string * string → nat → Prop) l l1 l2,
              (∀ c n n', P c n → P c n' → n = n') →
              Forall2 P l l1 → Forall2 P l l2 → l1 = l2) as Hfun.
    { intros P l l1 l2 HP H1. revert l2.
      induction H1 as [|x n l l1 Hx _ IH]; intros l2 H2.
      - by apply Forall2_nil_inv_l in H2.
      - apply Forall2_cons_inv_l in H2 as (n' & l2' & Hx' & H2 & ->).
        f_equal; [by eapply HP|by apply IH]. }
    f_equal. f_equal; eapply Hfun; try done; simpl; intros; congruence.
Qed.

Lemma resolved_unique (nm : registry) (df : DataFrame) (e1 e2 : edges) :
    resolved nm df e1 → resolved nm df e2 → e1 = e2.
Proof.
    intros [H1 N1] [H2 N2]. apply map_eq. intros [[s rel] t].
    destruct (decide (rel ∈ relation_configs.*2)) as [Hrel|Hrel].
    - apply list_elem_of_fmap in Hrel as ([f r] & -> & Hf).
      eapply edge_list_of_unique; [by apply H1|by apply H2].
    - by rewrite N1, N2.
Qed.

Lemma same_graph_of_resolved (nm : registry) (windows : list (Z * DataFrame))
      (l1 l2 : list Snapshot) :
    Forall2 (λ snap w, snapshot_timestamp snap = Some w.1
                       ∧ resolved nm w.2 (snapshot_edges snap)) l1 windows →
    Forall2 (λ snap w, snapshot_timestamp snap = Some w.1
                       ∧ resolved nm w.2 (snapshot_edges snap)) l2 windows →
    Forall2 same_graph l1 l2.
Proof.
    intros H1. revert l2. induction H1 as [|s1 w l1 ws [T1 R1] _ IH]; intros l2 H2.
    - apply Forall2_nil_inv_r in H2 as ->. constructor.
    - apply Forall2_cons_inv_r in H2 as (s2 & l2' & [T2 R2] & H2 & ->).
      constructor; [|by apply IH]. split; [congruence|by eapply resolved_unique].
Qed.

(** X3: a second build of the same input on the same builder ends the
    same way and yields, snapshot for snapshot, the same window starts and
    the same edge lists. *)
Theorem X3_rebuild_same_graph (fromisoformat : string → option Datetime.datetime)
      (torch : bool) (rs : list resource) (b : Builder) :
    raised (build_snapshots fromisoformat torch rs
              (build_snapshots fromisoformat torch rs b).2).1
    = raised (build_snapshots fromisoformat torch rs b).1
    ∧ Forall2 same_graph
        (yielded (build_snapshots fromisoformat torch rs b).1)
        (yielded (build_snapshots fromisoformat torch rs
                    (build_snapshots fromisoformat torch rs b).2).1).
Proof.
    destruct (collect fromisoformat rs []) as [dds|e] eqn:Hc.
    2:{ rewrite !(build_raise _ _ _ _ _ Hc). simpl. split; [done|constructor]. }
    destruct (build_chain fromisoformat torch rs b dds Hc) as (l1 & b1 & E1 & C1).
    rewrite E1. simpl.
    destruct (build_chain fromisoformat torch rs b1 dds Hc) as (l2 & b2 & E2 & C2).
    rewrite E2. simpl. split; [done|].
    pose proof (windows_of_well_formed (time_window b) dds) as Hwf.
    pose proof (chain_effect _ _ _ _ _ Hwf C1) as F1.
    assert (time_window b1 = time_window b) as W by apply F1.
    rewrite W in C2.
    pose proof (chain_effect _ _ _ _ _ Hwf C2) as F2.
    assert (node_mapping b2 = node_mapping b1) as Hnm.
    { destruct F1 as [H1 _], F2 as [H2 _]. by rewrite H2, H1, register_all_idempotent. }
    pose proof (chain_resolved _ _ _ _ _ Hwf C1) as R1.
    pose proof (chain_resolved _ _ _ _ _ Hwf C2) as R2.
    rewrite Hnm in R2. by eapply same_graph_of_resolved.
Qed.

(** X4: in the plain mapping, the node count of every type never goes down
    along the snapshots of a build, is at least the count in the registry
    before the build and at most the count after it. *)
Theorem X4_counts_never_decrease (fromisoformat : string → option Datetime.datetime)
      (rs : list resource) (b : Builder) :
    StronglySorted counts_le (yielded (build_snapshots fromisoformat false rs b).1)
    ∧ Forall (λ snap, ∀ t,
                (node_count (node_mapping b) t ≤ count_in snap t
                 ∧ count_in snap t
                   ≤ node_count (node_mapping (build_snapshots fromisoformat false rs b).2) t)%nat)
             (yielded (build_snapshots fromisoformat false rs b).1).
Proof.
    destruct (collect fromisoformat rs []) as [dds|e] eqn:Hc.
    2:{ rewrite (build_raise _ _ _ _ _ Hc). split; constructor. }
    destruct (build_chain fromisoformat false rs b dds Hc) as (l & b1 & E & C).
    rewrite E. simpl.
    destruct (chain_counts _ _ _ _ (windows_of_well_formed _ _) C) as [Hb Hs].
    by split.
Qed.








Lemma collect_events fromisoformat (rs : list resource) (acc dds : list DataDict) :
    collect fromisoformat rs acc = OK dds →
    dds = acc ++ omap (event_of fromisoformat) rs
    ∧ Forall (normalizes fromisoformat) rs.
Proof.
    revert acc. induction rs as [|r rs IH]; intros acc.
    - intros [= <-]. by rewrite app_nil_r.
    - simpl. unfold event_of at 1.
      destruct (normalize fromisoformat r) as [[d|]|x] eqn:Hn; [| |done].
      + intros H. destruct (IH _ H) as (-> & Hall).
        rewrite <- app_assoc. split; [done|]. constructor; [by eexists|done].
      + intros H. destruct (IH _ H) as (-> & Hall).
        split; [done|]. constructor; [by eexists|done].
Qed.


Lemma normalize_fields fromisoformat (r : resource) (d : DataDict) :
    normalize fromisoformat r = OK (Some d) →
    dd_payload d = r
    ∧ dd_resourceType d = PyDict.get r "resourceType"
    ∧ dd_id d = PyDict.get r "id"
    ∧ PyDict.get_nested r "subject" "reference" = OK (dd_subject_ref d)
    ∧ PyDict.get_nested r "encounter" "reference" = OK (dd_encounter_ref d)
    ∧ ∃ v, select_timestamp r = OK v
           ∧ parse_timestamp fromisoformat v = OK (dd_timestamp d).
Proof.
    unfold normalize.
    destruct (select_timestamp r) as [v|]; [|done].
    destruct (negb (PyDict.truthy v)); [done|].
    destruct (parse_timestamp fromisoformat v) as [ts|[]] eqn:Hp; try done.
    destruct (PyDict.get_nested r "subject" "reference") as [sr|]; [|done].
    destruct (PyDict.get_nested r "encounter" "reference") as [er|]; [|done].
    intros [= <-]. simpl. do 5 (split; [done|]). by exists v.
Qed.

Lemma event_fields fromisoformat (rs : list resource) :
    Forall2 (λ d r, normalize fromisoformat r = OK (Some d))
            (omap (event_of fromisoformat) rs)
            (filter (λ r, is_Some (event_of fromisoformat r)) rs).
Proof.
    induction rs as [|r rs IH]; [constructor|]. simpl.
    destruct (event_of fromisoformat r) as [d|] eqn:Hd.
    - rewrite filter_cons_True by (by rewrite Hd). constructor; [|done].
      unfold event_of in Hd. by destruct (normalize fromisoformat r) as [[?|]|]; simplify_eq.
    - rewrite filter_cons_False; [done|]. rewrite Hd. by intros [? ?].
Qed.

(** X7: when the records normalize, the events are the records with a
    resolvable timestamp, in the order of the input, one event per such
    record; an event carries its record as payload, the record's
    [resourceType] and [id], the two reference strings, and the parsed
    instant of the selected timestamp. *)
Theorem X7_events_follow_the_input
      (fromisoformat : string → option Datetime.datetime)
      (rs : list resource) (dds : list DataDict) :
    collect fromisoformat rs [] = OK dds →
    dds = omap (event_of fromisoformat) rs
    ∧ dd_payload <$> dds = filter (λ r, is_Some (event_of fromisoformat r)) rs
    ∧ Forall (λ d,
                dd_resourceType d = PyDict.get (dd_payload d) "resourceType"
                ∧ dd_id d = PyDict.get (dd_payload d) "id"
                ∧ PyDict.get_nested (dd_payload d) "subject" "reference"
                  = OK (dd_subject_ref d)
                ∧ PyDict.get_nested (dd_payload d) "encounter" "reference"
                  = OK (dd_encounter_ref d)
                ∧ ∃ v, select_timestamp (dd_payload d) = OK v
                       ∧ parse_timestamp fromisoformat v = OK (dd_timestamp d)) dds.
Proof.
    intros H. destruct (collect_events _ _ _ _ H) as (-> & _).
    simpl. split; [done|].
    pose proof (event_fields fromisoformat rs) as Hnew. revert Hnew.
    generalize (filter (λ r, is_Some (event_of fromisoformat r)) rs).
    generalize (omap (event_of fromisoformat) rs).
    intros new kept Hnew.
    induction Hnew as [|d r new rs' Hd _ [IH1 IH2]]; [by split|].
    destruct (normalize_fields _ _ _ Hd) as (Hp & Hrest).
    split.
    - rewrite fmap_cons. by rewrite Hp, IH1.
    - constructor; [|done]. by rewrite Hp.
Qed.

Lemma X7_events_follow_the_input_witness :
    ∃ dds,
      collect Iso8601.fromisoformat patient_history [] = OK dds
      ∧ dd_payload <$> dds
        = filter (λ r, is_Some (event_of Iso8601.fromisoformat r)) patient_history.
Proof.
    eexists. split; [vm_compute; reflexivity|].
    eapply proj1, proj2, (X7_events_follow_the_input Iso8601.fromisoformat patient_history).
    vm_compute. reflexivity.
Defined.





(** X10: a report that [summary] returns counts every snapshot once,
    numbers the lines from 0 in the order of the snapshots, gives each
    line the two counts of its snapshot, and its two totals are the sums of
    the lines. *)
Theorem X10_summary_totals (snapshots : list Snapshot) (r : Report) :
    summary snapshots = OK r →
    report_count r = length snapshots
    ∧ line_index <$> report_lines r = seq 0 (length snapshots)
    ∧ Forall2 (λ line snap, counts_of snap = OK (line_nodes line, line_edges line))
              (report_lines r) snapshots
    ∧ report_total_nodes r = sum_list (line_nodes <$> report_lines r)
    ∧ report_total_edges r = sum_list (line_edges <$> report_lines r).
Proof.
    intros H. destruct (summary_loop_spec _ _ _ _ H) as (lines & Hl & Hn & Htn & Hte & Hi & Hf).
    simpl in Hl, Hn, Htn, Hte. by rewrite Hl, Hn, Htn, Hte.
Qed.

Lemma X10_summary_totals_witness :
    ∃ r,
      summary (yielded (build_snapshots Iso8601.fromisoformat false patient_history
                          (new_builder one_day)).1) = OK r
      ∧ report_count r = 2%nat.
Proof.
    eexists. split; [vm_compute; reflexivity|].
    eapply eq_trans;
      [eapply proj1, (X10_summary_totals
                        (yielded (build_snapshots Iso8601.fromisoformat false
                                    patient_history (new_builder one_day)).1));
       vm_compute; reflexivity|].
    vm_compute. reflexivity.
Defined.

(** X11: the reporter never fails on the snapshots of a build in the
    plain mapping; the node count of a line is the sum of the per-type
    counts of its snapshot, and every line and the total report zero
    edges, whatever edges the snapshots hold. *)
Theorem X11_summary_of_plain_build
      (fromisoformat : string → option Datetime.datetime)
      (rs : list resource) (b : Builder) :
    ∃ r,
      summary (yielded (build_snapshots fromisoformat false rs b).1) = OK r
      ∧ Forall2 (λ line snap,
                   line_nodes line = sum_values (snapshot_num_nodes snap)
                   ∧ line_edges line = 0%nat)
                (report_lines r) (yielded (build_snapshots fromisoformat false rs b).1)
      ∧ report_total_edges r = 0%nat.
Proof.
    assert (Forall (λ snap, counts_of snap
                            = OK (sum_values (snapshot_num_nodes snap), 0%nat))
                   (yielded (build_snapshots fromisoformat false rs b).1)) as Hplain.
    { destruct (collect fromisoformat rs []) as [dds|e] eqn:Hc.
      - destruct (build_chain fromisoformat false rs b dds Hc) as (l & b1 & -> & C).
        simpl. eapply chain_plain; [apply windows_of_well_formed|done].
      - rewrite (build_raise _ _ _ _ _ Hc). constructor. }
    destruct (summary_loop_total
                (yielded (build_snapshots fromisoformat false rs b).1)
                0 (mk_report [] 0 0 0)) as [r Hr].
    { eapply Forall_impl; [exact Hplain|]. intros s Hs. eexists. exact Hs. }
    exists r. split; [done|].
    destruct (summary_loop_spec _ _ _ _ Hr) as (lines & Hl & _ & _ & Hte & _ & Hf).
    simpl in Hl, Hte. rewrite Hl, Hte.
    assert (Forall2 (λ line snap, line_nodes line = sum_values (snapshot_num_nodes snap)
                                  ∧ line_edges line = 0%nat)
                    lines (yielded (build_snapshots fromisoformat false rs b).1)) as Hz.
    { clear Hr Hl Hte. revert Hplain Hf.
      generalize (yielded (build_snapshots fromisoformat false rs b).1).
      intros l Hplain Hf. induction Hf as [|line snap lines l' Hc _ IH]; [constructor|].
      apply Forall_cons in Hplain as [Hs Hplain].
      constructor; [|by apply IH]. rewrite Hs in Hc. by injection Hc as <- <-. }
    split; [done|].
    clear -Hz. induction Hz as [|line snap lines l' [_ He] _ IH]; [done|].
    rewrite fmap_cons. simpl. by rewrite He, IH.
Qed.



(** X13: a record that is skipped, for want of a timestamp or because its
    timestamp does not parse, changes nothing: the build of the input
    without it yields the same snapshots, ends the same way and leaves
    the same builder. *)
Theorem X13_skipped_record_leaves_no_trace
      (fromisoformat : string → option Datetime.datetime) (torch : bool)
      (pre post : list resource) (r : resource) (b : Builder) :
    normalize fromisoformat r = OK None →
    build_snapshots fromisoformat torch (pre ++ r :: post) b
    = build_snapshots fromisoformat torch (pre ++ post) b.
Proof.
    intros Hr. by rewrite !build_unfold, (collect_skip _ _ _ _ _ Hr).
Qed.

Lemma X13_skipped_record_leaves_no_trace_witness :
    build_snapshots Iso8601.fromisoformat false
      ([[("resourceType", VStr "Patient"); ("id", VStr "p1");
         ("birthDate", VStr "1990")]]
       ++ [("resourceType", VStr "Observation"); ("id", VStr "o1");
           ("effectiveDateTime", VStr "unknown")] :: [])
      (new_builder one_day)
    = build_snapshots Iso8601.fromisoformat false
        ([[("resourceType", VStr "Patient"); ("id", VStr "p1");
           ("birthDate", VStr "1990")]] ++ [])
        (new_builder one_day).
Proof.
    apply (X13_skipped_record_leaves_no_trace Iso8601.fromisoformat false).
    vm_compute. reflexivity.
Defined.

End BuilderExtras.
(** ** Reference parsing, further properties *)

Module ReferenceExtras.
Import PyStr StringFacts Reference Assembler ParsingFacts.

(** X14: the two lambdas that parse a reference never raise, whatever the
    string: the type is the inferred one when there is no hint, else a
    segment without ["/"]; the id has no [":"] when ["urn:"] occurs in the
    reference and no ["/"] otherwise; so parsing a list of candidates
    never raises either, and gives one parsed candidate per candidate, with
    its source unchanged. *)
Theorem X14_reference_parsing_is_total (inferred : string) :
    (∀ s : string,
       ∃ t i, resolve inferred s = OK (t, i)
              ∧ (tgt_type_hint s = OK None ∧ t = inferred
                 ∨ tgt_type_hint s = OK (Some t) ∧ free_of "/" t = true)
              ∧ (if contains "urn:" s then free_of ":" i = true
                 else free_of "/" i = true))
    ∧ (∀ cs : list (key * key * string),
         ∃ cands, parse_candidates inferred cs = OK cands
                  ∧ Forall2 (λ c p, p.1.1 = c.1
                                    ∧ resolve inferred c.2 = OK (p.1.2, p.2)) cs cands).
Proof.
    split.
    - intros s. destruct (ReferenceSpec.resolve_total inferred s) as (t & i & H).
      exists t, i. split; [done|]. unfold resolve in H.
      destruct (tgt_type_hint s) as [hint|] eqn:Hh; [|done].
      destruct (tgt_id s) as [j|] eqn:Hj; [|done]. injection H as <- <-.
      split.
      + destruct hint as [t|]; [right|by left]. split; [done|].
        unfold tgt_type_hint in Hh.
        destruct (contains "/" s && negb (startswith "urn:" s)); [|done].
        destruct (index_from_end (split "/" s) 2) as [x|] eqn:E; [|done].
        injection Hh as <-. by eapply segment_free.
      + unfold tgt_id in Hj. destruct (contains "urn:" s); [by eapply segment_free|].
        destruct (contains "/" s) eqn:C; [by eapply segment_free|].
        injection Hj as <-. rewrite contains_char in C. by apply negb_false_iff in C.
    - induction cs as [|[[st si] ref] cs (cands & IH & F)]; [by exists []|].
      change (parse_candidates inferred ((st, si, ref) :: cs))
        with (match parse_candidate inferred (st, si, ref) with
              | Raise e => Raise e
              | OK p => match parse_candidates inferred cs with
                        | Raise e => Raise e
                        | OK ps => OK (p :: ps)
                        end
              end).
      rewrite RegisteredFacts.parse_candidate_resolve.
      destruct (ReferenceSpec.resolve_total inferred ref) as (t & i & H).
      cbn [fst snd]. rewrite H, IH. eexists. split; [done|]. by constructor.
Qed.

End ReferenceExtras.

